(** * Zattoo EPG grabber: guide acquisition, enrichment and XMLTV building

    A shallow embedding of [src/zattoo_epg.py] (class [ZattooEPG]) and the
    properties of its listing windows, detail batches, retry loop, detail
    merge, text cleaning and programme building.

    Conventions.
    - A Python [str] is a [string]; every [ascii] stands for one code point
      in the range 0..255.
    - A Python [int] is a [Z].
    - A Python [dict] with string keys is a [gmap string _]; [d.update(e)]
      is the left-biased union [e ∪ d].
    - Code that may raise returns a [result]. *)

From Stdlib Require Import ZArith Ascii String List Lia DecimalString DecimalZ DecimalPos.
From stdpp Require Import base option gmap strings list fin_maps.

Set Warnings "-register-all".
Local Open Scope string_scope.

(** ** Python strings *)

Module Text.

(** [str.isspace] on the code points 0..255: TAB..CR, FS..US, SPACE, NEL
    and NBSP. These are the characters [str.strip()] removes. *)
Definition is_space (c : ascii) : bool :=
  let n := N_of_ascii c in
  ((9 <=? n)%N && (n <=? 13)%N) || ((28 <=? n)%N && (n <=? 32)%N)
  || (n =? 133)%N || (n =? 160)%N.

(** [s.replace(old, new)] for a one-character [old]. *)
Fixpoint replace (old : ascii) (new : string) (s : string) : string :=
  match s with
  | EmptyString => EmptyString
  | String c s' =>
      if Ascii.eqb c old then new +:+ replace old new s'
      else String c (replace old new s')
  end.

(** [c in s] for a one-character [c]. *)
Fixpoint contains (c : ascii) (s : string) : bool :=
  match s with
  | EmptyString => false
  | String c' s' => Ascii.eqb c' c || contains c s'
  end.

(** [re.sub(r'<[^>]*>', '', s)]: scanning from the left, a ['<'] followed
    somewhere by a ['>'] starts a match that extends to the first such
    ['>']; the match is deleted. A ['<'] with no ['>'] after it is kept.
    [in_tag] is true while the scan is inside a match. *)
Fixpoint sub_tags (in_tag : bool) (s : string) : string :=
  match s with
  | EmptyString => EmptyString
  | String c s' =>
      if in_tag then
        if Ascii.eqb c ">" then sub_tags false s' else sub_tags true s'
      else if Ascii.eqb c "<" && contains ">" s' then sub_tags true s'
      else String c (sub_tags false s')
  end.

Definition re_sub_tags (s : string) : string := sub_tags false s.

Fixpoint lstrip (s : string) : string :=
  match s with
  | EmptyString => EmptyString
  | String c s' => if is_space c then lstrip s' else s
  end.

Fixpoint rstrip (s : string) : string :=
  match s with
  | EmptyString => EmptyString
  | String c s' =>
      match rstrip s' with
      | EmptyString => if is_space c then EmptyString else String c EmptyString
      | r => String c r
      end
  end.

(** [s.strip()] *)
Definition strip (s : string) : string := lstrip (rstrip s).

(** The three substitutions of [_clean_text], in source order. *)
Definition escape (text : string) : string :=
  let text := replace "&" "&amp;" text in
  let text := replace "<" "&lt;" text in
  let text := replace ">" "&gt;" text in
  text.

(** [ZattooEPG._clean_text] on a [str] argument. *)
Definition _clean_text (text : string) : string :=
  if String.eqb text "" then ""
  else
    let text := replace "&" "&amp;" text in
    let text := replace "<" "&lt;" text in
    let text := replace ">" "&gt;" text in
    let text := re_sub_tags text in
    strip text.

(** First and last character tests used to state when [strip] is the
    identity. *)
Definition starts_with_space (s : string) : bool :=
  match s with
  | EmptyString => false
  | String c _ => is_space c
  end.

Fixpoint ends_with_space (s : string) : bool :=
  match s with
  | EmptyString => false
  | String c EmptyString => is_space c
  | String _ s' => ends_with_space s'
  end.

(** One character as the three substitutions of [escape] leave it when
    they are read as a single pass. *)
Definition escape_char (c : ascii) : string :=
  if Ascii.eqb c "&" then "&amp;"
  else if Ascii.eqb c "<" then "&lt;"
  else if Ascii.eqb c ">" then "&gt;"
  else String c EmptyString.

Fixpoint escape_each (s : string) : string :=
  match s with
  | EmptyString => EmptyString
  | String c s' => escape_char c +:+ escape_each s'
  end.

(** [s.startswith(p)] *)
Definition startswith (p s : string) : bool := String.prefix p s.

(** [s.count(c)] for a one-character [c]. *)
Fixpoint count (c : ascii) (s : string) : nat :=
  match s with
  | EmptyString => 0
  | String c' s' => (if Ascii.eqb c' c then 1 else 0) + count c s'
  end.

(** [s.replace(old, new)] for a non-empty [old]: occurrences are replaced
    from the left and do not overlap. [skip] counts the characters of a
    replaced occurrence that are still to be passed over. *)
Fixpoint replace_from (skip : nat) (old new s : string) : string :=
  match s with
  | EmptyString => EmptyString
  | String c s' =>
      match skip with
      | S k => replace_from k old new s'
      | O =>
          if String.prefix old s
          then new +:+ replace_from (String.length old - 1) old new s'
          else String c (replace_from 0 old new s')
      end
  end.

Definition replace_str (old new s : string) : string := replace_from 0 old new s.

End Text.

(** ** Python values and exceptions *)

Module Py.

Inductive exn := ValueError | TypeError | AttributeError | ZeroDivisionError.

Inductive result (A : Type) :=
| Ok (a : A)
| Raise (e : exn).
Arguments Ok {A} a.
Arguments Raise {A} e.

Definition bind {A B} (r : result A) (k : A -> result B) : result B :=
  match r with
  | Ok a => k a
  | Raise e => Raise e
  end.

(** The JSON values of the embedding: null, integers, strings, arrays and
    objects. Booleans and numbers with a fraction or an exponent are not
    part of it. *)
Inductive value :=
| VNone
| VInt (n : Z)
| VStr (s : string)
| VList (l : list value)
| VDict (d : list (string * value)).

(** Truth value of an object ([if v:], [not v], [all([...])]). *)
Definition truthy (v : value) : bool :=
  match v with
  | VNone => false
  | VInt n => negb (n =? 0)%Z
  | VStr s => negb (String.eqb s "")
  | VList l => match l with [] => false | _ => true end
  | VDict d => match d with [] => false | _ => true end
  end.

(** [str(n)] for an [int]. *)
Definition str_of_int (n : Z) : string := NilZero.string_of_int (Z.to_int n).

Definition digit_of_ascii (c : ascii) : option (Decimal.uint -> Decimal.uint) :=
  if Ascii.eqb c "0" then Some Decimal.D0
  else if Ascii.eqb c "1" then Some Decimal.D1
  else if Ascii.eqb c "2" then Some Decimal.D2
  else if Ascii.eqb c "3" then Some Decimal.D3
  else if Ascii.eqb c "4" then Some Decimal.D4
  else if Ascii.eqb c "5" then Some Decimal.D5
  else if Ascii.eqb c "6" then Some Decimal.D6
  else if Ascii.eqb c "7" then Some Decimal.D7
  else if Ascii.eqb c "8" then Some Decimal.D8
  else if Ascii.eqb c "9" then Some Decimal.D9
  else None.

(** The digit part of an integer literal accepted by [int(str)]: one or
    more decimal digits, with single underscores allowed between digits. *)
Fixpoint uint_of_digits (s : string) : option Decimal.uint :=
  match s with
  | EmptyString => None
  | String c s' =>
      match digit_of_ascii c with
      | None => None
      | Some d =>
          match s' with
          | EmptyString => Some (d Decimal.Nil)
          | String c' s'' =>
              if Ascii.eqb c' "_" then option_map d (uint_of_digits s'')
              else option_map d (uint_of_digits s')
          end
      end
  end.

(** The characters [int(str)] skips around the literal: TAB..CR, SPACE,
    NEL and NBSP. Unlike [str.strip()] it does not skip FS..US. *)
Definition is_int_space (c : ascii) : bool :=
  let n := N_of_ascii c in
  ((9 <=? n)%N && (n <=? 13)%N) || (n =? 32)%N || (n =? 133)%N || (n =? 160)%N.

Fixpoint lskip (s : string) : string :=
  match s with
  | EmptyString => EmptyString
  | String c s' => if is_int_space c then lskip s' else s
  end.

Fixpoint rskip (s : string) : string :=
  match s with
  | EmptyString => EmptyString
  | String c s' =>
      match rskip s' with
      | EmptyString => if is_int_space c then EmptyString else String c EmptyString
      | r => String c r
      end
  end.

(** [sys.get_int_max_str_digits()], at its default: [int(str)] raises
    [ValueError] for a literal with more digits (leading zeros count,
    underscores do not). *)
Definition int_max_str_digits : nat := 4300.

(** The digits of a literal, when they are within the limit. *)
Definition literal_digits (s : string) : option Decimal.uint :=
  match uint_of_digits s with
  | Some u => if (Decimal.nb_digits u <=? int_max_str_digits)%nat then Some u else None
  | None => None
  end.

(** [int(s)] for a [str]: surrounding whitespace is skipped, then an
    optional sign and the digits; [None] stands for [ValueError]. *)
Definition int_of_str (s : string) : option Z :=
  match lskip (rskip s) with
  | EmptyString => None
  | String c r =>
      if Ascii.eqb c "-" then
        option_map (fun u => Z.opp (Z.of_uint u)) (literal_digits r)
      else if Ascii.eqb c "+" then option_map Z.of_uint (literal_digits r)
      else option_map Z.of_uint (literal_digits (String c r))
  end.

(** The number of decimal digits of [n]. *)
Definition ndigits (n : Z) : nat := String.length (str_of_int (Z.abs n)).

(** [int(v)] *)
Definition int (v : value) : result Z :=
  match v with
  | VInt n => Ok n
  | VStr s =>
      match int_of_str s with
      | Some n => Ok n
      | None => Raise ValueError
      end
  | _ => Raise TypeError
  end.

(** [v == n] for an [int] [n]. *)
Definition eq_int (v : value) (n : Z) : bool :=
  match v with
  | VInt m => (m =? n)%Z
  | _ => false
  end.

(** [for x in v]: the items an iteration over [v] yields. *)
Definition iter (v : value) : result (list value) :=
  match v with
  | VList l => Ok l
  | VStr s => Ok (map (fun c => VStr (String c EmptyString)) (list_ascii_of_string s))
  | VDict d => Ok (map (fun kv => VStr (fst kv)) d)
  | _ => Raise TypeError
  end.

Section Str.
(** [str] of an array or an object is their [repr]; it is taken as given. *)
Variable repr : value -> string.

(** [str(v)] *)
Definition str (v : value) : string :=
  match v with
  | VNone => "None"
  | VInt n => str_of_int n
  | VStr s => s
  | _ => repr v
  end.
End Str.

(** [d.get(k)] and [d.get(k, dflt)] on a record. *)
Definition get (k : string) (d : gmap string value) : value :=
  default VNone (d !! k).

Definition get_default (k : string) (dflt : value) (d : gmap string value) : value :=
  default dflt (d !! k).

(** [d.get(k, dflt)] on an object value; a non-object has no [get]. *)
Fixpoint assoc (k : string) (d : list (string * value)) : option value :=
  match d with
  | [] => None
  | (k', v) :: d' => if String.eqb k' k then Some v else assoc k d'
  end.

End Py.

Notation "x <- r ;; k" := (Py.bind r (fun x => k))
  (at level 100, r at next level, right associativity).

(** ** Listing Fetcher: the request windows of [download_epg_data] *)

Module Listing.

Section Windows.
(** A naive [datetime] is the number of wall-clock seconds since a fixed
    local midnight. [utcoffset t] is the offset of the local zone, in
    seconds, at the wall-clock time [t]; [dt.timestamp()] subtracts it. *)
Variable utcoffset : Z -> Z.

Definition timestamp (t : Z) : Z := (t - utcoffset t)%Z.

Definition days_delta (d : Z) : Z := (d * 86400)%Z.
Definition hours_delta (h : Z) : Z := (h * 3600)%Z.

(** [dt.replace(hour=6, minute=0, second=0, microsecond=0)] *)
Definition replace_hour_6 (dt : Z) : Z :=
  (dt - dt mod 86400 + hours_delta 6)%Z.

(** The inner loop [for part in range(4)]: the [(start, end)] request
    parameters of one day. *)
Definition day_windows (current_date : Z) : list (Z * Z) :=
  map (fun part : nat =>
         let start_time := (current_date + hours_delta (Z.of_nat part * 6))%Z in
         let end_time := (start_time + hours_delta 6)%Z in
         (timestamp start_time, timestamp end_time))
      (seq 0 4).

(** The [(start, end)] pairs the two loops of [download_epg_data] go
    through, in order, when called at wall-clock time [now]. One request
    is made per pair for as long as no pair raises; see
    [Download.requested]. *)
Definition download_windows (now : Z) (days : nat) : list (Z * Z) :=
  let base_date := replace_hour_6 now in
  flat_map (fun day : nat =>
              let current_date := (base_date + days_delta (Z.of_nat day))%Z in
              day_windows current_date)
           (seq 0 days).

(** The pair of timestamps [k] six-hour steps after the base date. *)
Definition window_at (base_date : Z) (k : nat) : Z * Z :=
  (timestamp (base_date + 21600 * Z.of_nat k),
   timestamp (base_date + 21600 * Z.of_nat (S k))).
End Windows.

(** Midnight of the day of [now], the start of the local day. *)
Definition local_day_start (now : Z) : Z := (now - now mod 86400)%Z.

(** A zone that moves its clocks forward by one hour at 02:00 of the
    second day: offset +1h before, +2h from then on. *)
Definition spring_forward (t : Z) : Z :=
  if (t <? 86400 + 7200)%Z then 3600%Z else 7200%Z.

End Listing.

(** ** Detail Enricher: [enhance_epg_data] *)

Module Enrich.
Import Py.

(** A key of the detail map returned for a batch. The map is the
    ['programs'] object of a parsed JSON body, so every key is a [str]. *)
Inductive key :=
| KStr (s : string).

#[global] Instance key_eq_dec : EqDecision key.
Proof. solve_decision. Defined.

Definition key_text (k : key) : string :=
  match k with
  | KStr s => s
  end.

#[global] Instance key_countable : Countable key.
Proof.
  refine (inj_countable' key_text KStr _).
  intros []; reflexivity.
Defined.

(** What the run does to the outside world, in order. *)
Inductive event :=
| Request (batch : list string)   (* get_program_details_batch(batch) *)
| SleepSeconds (wait_time : Z)    (* time.sleep(wait_time), whole seconds *)
| SleepTenths (tenths : Z).       (* time.sleep(1.0) is 10, time.sleep(0.5) is 5 *)

Record state := {
  epg_data : list (gmap string value);
  enhanced_count : Z;
  failed_count : Z;
  connection_errors : Z;
  requests : nat;                 (* number of batch requests issued so far *)
  trace : list event
}.

Definition set_epg_data (d : list (gmap string value)) (st : state) : state :=
  {| epg_data := d; enhanced_count := enhanced_count st;
     failed_count := failed_count st; connection_errors := connection_errors st;
     requests := requests st; trace := trace st |}.

Definition add_enhanced (st : state) : state :=
  {| epg_data := epg_data st; enhanced_count := enhanced_count st + 1;
     failed_count := failed_count st; connection_errors := connection_errors st;
     requests := requests st; trace := trace st |}.

Definition add_failed (st : state) : state :=
  {| epg_data := epg_data st; enhanced_count := enhanced_count st;
     failed_count := failed_count st + 1; connection_errors := connection_errors st;
     requests := requests st; trace := trace st |}.

Definition add_connection_error (st : state) : state :=
  {| epg_data := epg_data st; enhanced_count := enhanced_count st;
     failed_count := failed_count st; connection_errors := connection_errors st + 1;
     requests := requests st; trace := trace st |}.

Definition emit (e : event) (st : state) : state :=
  {| epg_data := epg_data st; enhanced_count := enhanced_count st;
     failed_count := failed_count st; connection_errors := connection_errors st;
     requests := requests st; trace := trace st ++ [e] |}.

Definition count_request (st : state) : state :=
  {| epg_data := epg_data st; enhanced_count := enhanced_count st;
     failed_count := failed_count st; connection_errors := connection_errors st;
     requests := S (requests st); trace := trace st |}.

Definition max_retries : Z := 3.
Definition batch_size : nat := 20.

(** [range(start, stop, step)] for a positive [step]. *)
Fixpoint range_from (fuel start stop step : nat) : list nat :=
  match fuel with
  | O => []
  | S fuel' =>
      if (start <? stop)%nat then start :: range_from fuel' (start + step) stop step
      else []
  end.

Definition range (start stop step : nat) : list nat :=
  range_from stop start stop step.

(** [l[i:j]] *)
Definition slice {A} (l : list A) (i j : nat) : list A := take (j - i) (drop i l).

(** The batches of the loop [for i in range(0, len(program_ids), batch_size)]. *)
Definition batches (program_ids : list string) : list (list string) :=
  map (fun i => slice program_ids i (i + batch_size))
      (range 0 (length program_ids) batch_size).

Section Enhance.
Variable repr : value -> string.

(** [get_program_details_batch]: the detail map the upstream source
    returns for the [n]-th request of the run, [{}] on any failure. *)
Variable server : nat -> list string -> gmap key (gmap string value).

(** The identifiers collected before the batch loop. *)
Fixpoint program_ids (data : list (gmap string value)) : list string :=
  match data with
  | [] => []
  | program :: rest =>
      let program_id := get "id" program in
      if truthy program_id then str repr program_id :: program_ids rest
      else program_ids rest
  end.

Definition is_empty (d : gmap key (gmap string value)) : bool :=
  bool_decide (d = ∅).

(** The [while retry_count < max_retries and not batch_details] loop.
    The loop variant is [max_retries - retry_count] plus one for the
    round that stores a non-empty answer; [fuel] bounds it. The result
    is the final [retry_count], [batch_details] and state. *)
Fixpoint retry_loop (fuel : nat) (batch : list string) (retry_count : Z)
    (batch_details : gmap key (gmap string value)) (st : state)
    : Z * gmap key (gmap string value) * state :=
  match fuel with
  | O => (retry_count, batch_details, st)
  | S fuel' =>
      if (retry_count <? max_retries)%Z && is_empty batch_details then
        let batch_details := server (requests st) batch in
        let st := count_request (emit (Request batch) st) in
        if is_empty batch_details then
          let retry_count := (retry_count + 1)%Z in
          if (retry_count <? max_retries)%Z then
            let wait_time := (2 ^ retry_count)%Z in
            retry_loop fuel' batch retry_count batch_details
                       (emit (SleepSeconds wait_time) st)
          else
            retry_loop fuel' batch retry_count batch_details
                       (add_connection_error st)
        else retry_loop fuel' batch retry_count batch_details st
      else (retry_count, batch_details, st)
  end.

Definition fetch_with_retry (batch : list string) (st : state)
    : Z * gmap key (gmap string value) * state :=
  retry_loop (S (Z.to_nat max_retries)) batch 0 ∅ st.

(** The test of the inner scan:
    [str(program_db_id) == program_id or program_db_id == int(program_id)]. *)
Definition id_matches (program_db_id : value) (program_id : string) : result bool :=
  if String.eqb (str repr program_db_id) program_id then Ok true
  else
    n <- int (VStr program_id) ;;
    Ok (eq_int program_db_id n).

(** [for program in self.epg_data: ... break]: the first record that
    matches is updated in place; [None] when the scan ends without a
    match. *)
Fixpoint update_first (program_id : string) (details : gmap string value)
    (data : list (gmap string value)) : result (option (list (gmap string value))) :=
  match data with
  | [] => Ok None
  | program :: rest =>
      let program_db_id := get "id" program in
      matched <- id_matches program_db_id program_id ;;
      if (matched : bool) then Ok (Some ((details ∪ program) :: rest))
      else
        r <- update_first program_id details rest ;;
        Ok (option_map (cons program) r)
  end.

(** One round of [for program_id in batch]. The detail map is an object
    whose entries are objects, as the upstream API delivers it; what
    [in], the subscript and [update] raise on an answer of another shape
    is not part of the embedding. *)
Definition merge_one (batch_details : gmap key (gmap string value))
    (program_id : string) (acc : state * Z) : result (state * Z) :=
  let '(st, batch_enhanced) := acc in
  match batch_details !! KStr program_id with
  | Some details =>
      r <- update_first program_id details (epg_data st) ;;
      match r with
      | Some data => Ok (add_enhanced (set_epg_data data st), (batch_enhanced + 1)%Z)
      | None => Ok (st, batch_enhanced)
      end
  | None => Ok (add_failed st, batch_enhanced)
  end.

Fixpoint merge_batch (batch_details : gmap key (gmap string value))
    (batch : list string) (acc : state * Z) : result (state * Z) :=
  match batch with
  | [] => Ok acc
  | program_id :: rest =>
      acc <- merge_one batch_details program_id acc ;;
      merge_batch batch_details rest acc
  end.

(** The body of the batch loop up to the early-abort test. *)
Definition process_batch (batch : list string) (st : state) : result state :=
  let '(_, batch_details, st) := fetch_with_retry batch st in
  acc <- merge_batch batch_details batch (st, 0%Z) ;;
  let '(st, batch_enhanced) := acc in
  if (batch_enhanced =? 0)%Z then Ok (emit (SleepTenths 10) st)
  else Ok (emit (SleepTenths 5) st).

(** The batch loop with its [break]. *)
Fixpoint batch_loop (bs : list (list string)) (st : state) : result state :=
  match bs with
  | [] => Ok st
  | batch :: rest =>
      st <- process_batch batch st ;;
      if (connection_errors st >? 5)%Z then Ok st
      else batch_loop rest st
  end.

Definition initial (data : list (gmap string value)) : state :=
  {| epg_data := data; enhanced_count := 0; failed_count := 0;
     connection_errors := 0; requests := 0; trace := [] |}.

(** The loop part of [enhance_epg_data]. *)
Definition enhance_loop (data : list (gmap string value)) : result state :=
  batch_loop (batches (program_ids data)) (initial data).

(** [enhance_epg_data]: after the loop the summary divides by
    [len(program_ids)]. *)
Definition enhance_epg_data (data : list (gmap string value)) : result state :=
  st <- enhance_loop data ;;
  match program_ids data with
  | [] => Raise ZeroDivisionError
  | _ => Ok st
  end.
End Enhance.

(** The batches requested, in order, according to a trace. *)
Definition request_batches (t : list event) : list (list string) :=
  omap (fun e => match e with Request b => Some b | _ => None end) t.

(** The pacing sleeps of a trace ([time.sleep(1.0)] and
    [time.sleep(0.5)]), in tenths of a second. *)
Definition pacing_sleeps (t : list event) : list Z :=
  omap (fun e => match e with SleepTenths d => Some d | _ => None end) t.

(** The state after a batch whose three attempts all returned nothing. *)
Definition after_exhausted (batch : list string) (st : state) : state :=
  {| epg_data := epg_data st;
     enhanced_count := enhanced_count st;
     failed_count := failed_count st + Z.of_nat (length batch);
     connection_errors := connection_errors st + 1;
     requests := requests st + 3;
     trace := trace st ++ [Request batch; SleepSeconds 2; Request batch;
                           SleepSeconds 4; Request batch; SleepTenths 10] |}.

(** All three attempts of a batch started as request [n] return nothing. *)
Definition exhausted (server : nat -> list string -> gmap key (gmap string value))
    (n : nat) (batch : list string) : bool :=
  is_empty (server n batch) && is_empty (server (S n) batch)
  && is_empty (server (S (S n)) batch).

(** Sample inputs: [n] records with the integer identifiers [1..n], a
    source that never answers, a source that answers every request with
    details for the record ["101"], and a source that only answers the
    tenth request of a run, with details for the record ["61"]. *)
Definition numbered_records (n : nat) : list (gmap string value) :=
  map (fun k : nat => {["id" := VInt (Z.of_nat k)]}) (seq 1 n).

Definition dead_server : nat -> list string -> gmap key (gmap string value) :=
  fun _ _ => ∅.

Definition answering_server : nat -> list string -> gmap key (gmap string value) :=
  fun _ _ => {[KStr "101" := {["d" := VStr "Wetter"]}]}.

Definition tenth_only_server : nat -> list string -> gmap key (gmap string value) :=
  fun n _ => if (n =? 9)%nat then {[KStr "61" := {["d" := VStr "Wetter"]}]} else ∅.

(** The identifiers of a batch for which the detail map has no entry,
    and those for which it has one. *)
Definition absent_ids (batch_details : gmap key (gmap string value))
    (batch : list string) : list string :=
  filter (fun program_id => batch_details !! KStr program_id = None) batch.

Definition present_ids (batch_details : gmap key (gmap string value))
    (batch : list string) : list string :=
  filter (fun program_id => is_Some (batch_details !! KStr program_id)) batch.

(** Every field of [r] is still a field of [r']. *)
Definition keeps_fields (r r' : gmap string value) : Prop :=
  forall k, is_Some (r !! k) -> is_Some (r' !! k).

End Enrich.

(** ** Guide Document Builder: [generate_xmltv] *)

Module Xmltv.
Import Py.

(** An [xml.etree.ElementTree.Element]: tag, attributes in insertion
    order, text and children. Attribute values and texts are kept as the
    objects the code stores. *)
Inductive element :=
| Element (tag : string) (attrib : list (string * value)) (text : option value)
          (children : list element).

Definition tag_of (e : element) : string :=
  match e with Element t _ _ _ => t end.

Definition attrib_of (e : element) : list (string * value) :=
  match e with Element _ a _ _ => a end.

Definition text_of (e : element) : option value :=
  match e with Element _ _ t _ => t end.

Definition children_of (e : element) : list element :=
  match e with Element _ _ _ c => c end.

(** An entry of [self.channels], as [get_channels] stores it. *)
Record channel := { title : string; logo : string }.

Section Build.
Variable repr : value -> string.

(** [datetime.fromtimestamp(ts).strftime('%Y%m%d%H%M%S +0200')]: the
    calendar conversion of the library, which raises for a timestamp
    out of its range. *)
Variable strftime_local : Z -> result string.

(** [self.language] *)
Variable language : string.

(** [datetime.fromtimestamp(v)] and its [strftime] on a value: an
    integer is converted; null, a string, an array or an object is
    rejected by [fromtimestamp] with [TypeError]. *)
Definition format_time (v : value) : result string :=
  match v with
  | VInt ts => strftime_local ts
  | _ => Raise TypeError
  end.

(** [self._clean_text(v)]: a falsy argument gives [""]; any other
    object that is not a [str] has no [replace]. *)
Definition clean_text (v : value) : result string :=
  if negb (truthy v) then Ok ""
  else
    match v with
    | VStr s => Ok (Text._clean_text s)
    | _ => Raise AttributeError
    end.

Definition lang_leaf (tag : string) (text : string) : element :=
  Element tag [("lang", VStr language)] (Some (VStr text)) [].

(** One optional child with cleaned text ([sub-title], [desc]). *)
Definition cleaned_child (tag : string) (v : value) : result (list element) :=
  if truthy v then
    t <- clean_text v ;;
    Ok [lang_leaf tag t]
  else Ok [].

Definition icon_child (image : value) : list element :=
  if truthy image then
    [Element "icon"
       [("src", VStr ("https://images.zattic.com/cms/" +:+ str repr image
                      +:+ "/original.jpg"))] None []]
  else [].

Definition date_child (year : value) : list element :=
  if truthy year then [Element "date" [] (Some (VStr (str repr year))) []]
  else [].

Definition country_child (country : value) : list element :=
  if truthy country then [Element "country" [] (Some country) []]
  else [].

(** [for genre in genres: if genre: ...] *)
Fixpoint category_children (genres : list value) : result (list element) :=
  match genres with
  | [] => Ok []
  | genre :: rest =>
      if truthy genre then
        t <- clean_text genre ;;
        r <- category_children rest ;;
        Ok (lang_leaf "category" t :: r)
      else category_children rest
  end.

(** [for name in names: if name: ...] for directors and actors. *)
Fixpoint credit_children (tag : string) (names : list value) : result (list element) :=
  match names with
  | [] => Ok []
  | name :: rest =>
      if truthy name then
        t <- clean_text name ;;
        r <- credit_children tag rest ;;
        Ok (Element tag [] (Some (VStr t)) [] :: r)
      else credit_children tag rest
  end.

Definition credits_child (credits : value) : result (list element) :=
  if truthy credits then
    match credits with
    | VDict d =>
        directors <- iter (default (VList []) (assoc "director" d)) ;;
        ds <- credit_children "director" directors ;;
        actors <- iter (default (VList []) (assoc "actor" d)) ;;
        acs <- credit_children "actor" actors ;;
        Ok [Element "credits" [] None (ds ++ acs)]
    | _ => Raise AttributeError
    end
  else Ok [].

(** [str(int(num) - 1) if num else ''] *)
Definition zero_based (num : value) : result string :=
  if truthy num then
    n <- int num ;;
    Ok (str_of_int (n - 1))
  else Ok "".

(** The text of the [episode-num] element. *)
Definition episode_text (series_num episode_num : value) : result string :=
  series_str <- zero_based series_num ;;
  episode_str <- zero_based episode_num ;;
  Ok (series_str +:+ "." +:+ episode_str +:+ ".").

Definition episode_child (series_num episode_num : value) : result (list element) :=
  if truthy series_num || truthy episode_num then
    t <- episode_text series_num episode_num ;;
    Ok [Element "episode-num" [("system", VStr "xmltv_ns")] (Some (VStr t)) []]
  else Ok [].

Definition rating_child (rating : value) : list element :=
  if truthy rating then
    [Element "rating" [("system", VStr "FSK")] None
       [Element "value" [] (Some (VStr (str repr rating))) []]]
  else [].

(** The [all([cid, start_time, end_time, title])] test. *)
Definition required_present (program : gmap string value) : bool :=
  forallb truthy [get "cid" program; get "s" program; get "e" program;
                  get_default "t" (VStr "") program].

(** One round of [for program in self.epg_data]: [None] for a record
    skipped by [continue], the [programme] element otherwise. *)
Definition build_programme (program : gmap string value) : result (option element) :=
  let cid := get "cid" program in
  let start_time := get "s" program in
  let end_time := get "e" program in
  let title := get_default "t" (VStr "") program in
  if negb (required_present program) then Ok None
  else
    start_str <- format_time start_time ;;
    end_str <- format_time end_time ;;
    title_text <- clean_text title ;;
    subtitle <- cleaned_child "sub-title" (get "et" program) ;;
    desc <- cleaned_child "desc" (get "d" program) ;;
    genres <- iter (get_default "g" (VList []) program) ;;
    categories <- category_children genres ;;
    credits <- credits_child (get_default "cr" (VDict []) program) ;;
    episode <- episode_child (get "s_no" program) (get "e_no" program) ;;
    Ok (Some
          (Element "programme"
             [("start", VStr start_str); ("stop", VStr end_str); ("channel", cid)]
             None
             (lang_leaf "title" title_text
                :: subtitle ++ desc
                ++ icon_child (get "i_t" program)
                ++ date_child (get "year" program)
                ++ country_child (get "country" program)
                ++ categories ++ credits ++ episode
                ++ rating_child (get "yp_r" program)))).

Fixpoint build_programmes (data : list (gmap string value)) : result (list element) :=
  match data with
  | [] => Ok []
  | program :: rest =>
      e <- build_programme program ;;
      r <- build_programmes rest ;;
      Ok (match e with Some p => p :: r | None => r end)
  end.

Definition channel_element (entry : string * channel) : element :=
  let '(cid, channel_info) := entry in
  Element "channel" [("id", VStr cid)] None
    (lang_leaf "display-name" (Text.replace "&" "&amp;" (title channel_info))
       :: (if String.eqb (logo channel_info) "" then []
           else [Element "icon" [("src", VStr (logo channel_info))] None []])).

(** The [tv] tree that [generate_xmltv] builds from [self.channels] (in
    insertion order) and [self.epg_data]; [Raise] where building it
    raises, which the method catches to return [False]. Turning the tree
    into text and writing the file come after and are not part of the
    embedding: [Ok] says that the tree is built. *)
Definition generate_xmltv (channels : list (string * channel))
    (data : list (gmap string value)) : result element :=
  programmes <- build_programmes data ;;
  Ok (Element "tv"
        [("source-info-url", VStr "https://zattoo.com/");
         ("source-data-url", VStr "https://zattoo.com/");
         ("generator-info-name", VStr "Zattoo EPG Grabber Python")]
        None
        (map channel_element channels ++ programmes)).

(** The [channel] attributes of the [programme] children of a tree. *)
Definition programme_channels (tv : element) : list (option value) :=
  map (fun e => assoc "channel" (attrib_of e))
      (filter (fun e => tag_of e = "programme") (children_of tv)).
End Build.

(** A season or episode number as the record carries it: absent, or an
    integer. *)
Definition number_value (o : option Z) : value :=
  match o with
  | Some n => VInt n
  | None => VNone
  end.

(** Its zero-based rendering, empty when absent. *)
Definition component (o : option Z) : string :=
  match o with
  | Some n => str_of_int (n - 1)
  | None => ""
  end.

(** The tag of an optional child: present when the field is truthy. *)
Definition tag_if (v : value) (tag : string) : list string :=
  if truthy v then [tag] else [].

(** A string, an array or an object: the values
    [datetime.fromtimestamp] rejects with [TypeError] although they can
    be truthy. *)
Definition is_text_or_compound (v : value) : bool :=
  match v with
  | VStr _ | VList _ | VDict _ => true
  | _ => false
  end.

End Xmltv.

(** ** JSON access with caught exceptions

    [get_channels] and [download_epg_data] run inside [try ... except
    Exception]; whichever exception is raised, they return [False]. There
    a raising step is [None]. *)

Module Json.
Import Py.

(** [v.get(k, dflt)]: only an object has [get]. *)
Definition obj_get (k : string) (dflt : value) (v : value) : option value :=
  match v with
  | VDict d => Some (default dflt (assoc k d))
  | _ => None
  end.

(** [v[0]] for a truthy [v]: the first item of an array, the first
    character of a string; an object has no key [0] and an integer has no
    items. *)
Definition first_item (v : value) : option value :=
  match v with
  | VList (x :: _) => Some x
  | VStr (String c _) => Some (VStr (String c EmptyString))
  | _ => None
  end.

(** [for x in v] *)
Definition items (v : value) : option (list value) :=
  match iter v with
  | Ok l => Some l
  | Raise _ => None
  end.

(** A loop body applied to every item in turn, stopping at the first
    exception. *)
Fixpoint for_each {A B} (f : A -> option (list B)) (l : list A) : option (list B) :=
  match l with
  | [] => Some []
  | x :: rest =>
      match f x with
      | None => None
      | Some ys =>
          match for_each f rest with
          | None => None
          | Some zs => Some (ys ++ zs)%list
          end
      end
  end.

End Json.

(** ** Progress display: [show_progress_bar] *)

Module Progress.

(** The two characters of the bar: the full block and the light shade. *)
Inductive cell := Full | Shade.

(** [int(length * current // total) if total > 0 else 0] *)
Definition filled (current total length : Z) : Z :=
  if (total >? 0)%Z then (length * current / total)%Z else 0%Z.

(** The local [bar]: a string repeated a negative number of times is
    empty. The [percent] computed before it, whose division raises
    [OverflowError] when the quotient is beyond the range of a float, is
    not part of the embedding; for [0 <= current <= total] the quotient
    is at most 1. *)
Definition bar (current total length : Z) : list cell :=
  let filled := filled current total length in
  (repeat Full (Z.to_nat filled) ++ repeat Shade (Z.to_nat (length - filled)))%list.

End Progress.

(** ** Channel list: the processing part of [get_channels] *)

Module Channels.
Import Py Json.

(** A value of [self.channels]. *)
Record entry := { title : value; logo : string }.

(** Equality of the keys a [dict] accepts. *)
Definition key_eqb (a b : value) : bool :=
  match a, b with
  | VNone, VNone => true
  | VInt m, VInt n => (m =? n)%Z
  | VStr s, VStr t => String.eqb s t
  | _, _ => false
  end.

(** Arrays and objects are unhashable. *)
Definition hashable (v : value) : bool :=
  match v with
  | VList _ | VDict _ => false
  | _ => true
  end.

(** [d[k] = e] on a dictionary kept in insertion order: an existing key
    keeps its place and gets the new value. *)
Fixpoint dict_set (k : value) (e : entry) (d : list (value * entry))
    : list (value * entry) :=
  match d with
  | [] => [(k, e)]
  | (k', e') :: d' =>
      if key_eqb k' k then (k', e) :: d' else (k', e') :: dict_set k e d'
  end.

Fixpoint dict_get (k : value) (d : list (value * entry)) : option entry :=
  match d with
  | [] => None
  | (k', e') :: d' => if key_eqb k' k then Some e' else dict_get k d'
  end.

(** The logo reference of a channel. *)
Definition logo_of (channel : value) : option string :=
  match obj_get "qualities" (VList []) channel with
  | None => None
  | Some qualities =>
      if truthy qualities then
        match first_item qualities with
        | None => None
        | Some quality =>
            match obj_get "logo_black_84" (VStr "") quality with
            | Some (VStr s) =>
                let logo_url := Text.replace_str "84x48.png" "210x120.png" s in
                if Text.startswith "/" logo_url
                then Some ("https://logos.zattic.com" +:+ logo_url)
                else Some logo_url
            | _ => None
            end
        end
      else Some ""
  end.

(** One round of [for channel in group.get('channels', [])]. *)
Definition add_channel (channel : value) (channels : list (value * entry))
    : option (list (value * entry)) :=
  match obj_get "cid" VNone channel, obj_get "title" (VStr "") channel with
  | Some cid, Some title =>
      if truthy cid && truthy title then
        match logo_of channel with
        | None => None
        | Some logo_url =>
            if hashable cid
            then Some (dict_set cid {| title := title; logo := logo_url |} channels)
            else None
        end
      else Some channels
  | _, _ => None
  end.

(** The loops keep what they stored when an exception ends them: the
    result is the dictionary and whether the loop ran to its end. *)
Fixpoint add_channels (cs : list value) (channels : list (value * entry))
    : list (value * entry) * bool :=
  match cs with
  | [] => (channels, true)
  | channel :: rest =>
      match add_channel channel channels with
      | Some channels' => add_channels rest channels'
      | None => (channels, false)
      end
  end.

Fixpoint add_groups (groups : list value) (channels : list (value * entry))
    : list (value * entry) * bool :=
  match groups with
  | [] => (channels, true)
  | group :: rest =>
      match obj_get "channels" (VList []) group with
      | None => (channels, false)
      | Some cs =>
          match items cs with
          | None => (channels, false)
          | Some cs =>
              match add_channels cs channels with
              | (channels', true) => add_groups rest channels'
              | (channels', false) => (channels', false)
              end
          end
      end
  end.

(** [get_channels] for a response with the given status code and parsed
    body ([None] when [response.json()] raises), starting from
    [self.channels = channels]: the new [self.channels] and the returned
    boolean. *)
Definition get_channels (status_code : Z) (json : option value)
    (channels : list (value * entry)) : list (value * entry) * bool :=
  if negb (status_code =? 200)%Z then (channels, false)
  else
    match json with
    | None => (channels, false)
    | Some data =>
        match obj_get "success" VNone data, obj_get "channel_groups" (VList []) data with
        | Some success, Some channel_groups =>
            if negb (truthy success) then (channels, false)
            else if truthy channel_groups then
              match items channel_groups with
              | None => (channels, false)
              | Some groups =>
                  match add_groups groups channels with
                  | (channels', true) =>
                      (channels', match channels' with [] => false | _ => true end)
                  | (channels', false) => (channels', false)
                  end
              end
            else (channels, match channels with [] => false | _ => true end)
        | _, _ => (channels, false)
        end
    end.

(** No key occurs twice. *)
Fixpoint distinct_keys (d : list (value * entry)) : Prop :=
  match d with
  | [] => True
  | (k, _) :: d' => dict_get k d' = None /\ distinct_keys d'
  end.

(** What every stored entry satisfies. *)
Definition well_formed (kv : value * entry) : Prop :=
  truthy (fst kv) = true /\ truthy (title (snd kv)) = true
  /\ Text.startswith "/" (logo (snd kv)) = false.

End Channels.

(** ** Listing Fetcher: the gathering part of [download_epg_data] *)

Module Download.
Import Py Json.

(** What [self.session.get] gives for a window: an exception, or a
    status code with the parsed body ([None] when [response.json()]
    raises). *)
Inductive response :=
| NoResponse
| Status (status_code : Z) (json : option value).

(** [program['cid'] = cid] on a listed program, which has to be an
    object. *)
Definition tag_program (cid : value) (program : value) : option (list (gmap string value)) :=
  match program with
  | VDict d => Some [<["cid" := cid]> (list_to_map d : gmap string value)]
  | _ => None
  end.

(** One round of [for channel in channels_array]. *)
Definition channel_programs (channel : value) : option (list (gmap string value)) :=
  match obj_get "cid" VNone channel, obj_get "id" VNone channel,
        obj_get "programs" (VList []) channel with
  | Some c1, Some c2, Some channel_programs =>
      let cid := if truthy c1 then c1 else c2 in
      if truthy cid && truthy channel_programs then
        match items channel_programs with
        | None => None
        | Some programs => for_each (tag_program cid) programs
        end
      else Some []
  | _, _, _ => None
  end.

(** The programs one window adds to [all_programs]; [None] when the
    window raises. *)
Definition window_programs (r : response) : option (list (gmap string value)) :=
  match r with
  | NoResponse => None
  | Status status_code json =>
      if negb (status_code =? 200)%Z then Some []
      else
        match json with
        | None => None
        | Some data =>
            match obj_get "success" VNone data, obj_get "channels" (VList []) data with
            | Some success, Some channels_array =>
                if negb (truthy success) then Some []
                else
                  match items channels_array with
                  | None => None
                  | Some channels => for_each channel_programs channels
                  end
            | _, _ => None
            end
        end
  end.

Section Download.
Variable utcoffset : Z -> Z.

(** The upstream source: the response to the request for a window. *)
Variable fetch : Z * Z -> response.

(** [download_epg_data]: [Some all_programs] when it stores the list and
    returns [True], [None] when an exception makes it return [False]. *)
Definition download_epg_data (now : Z) (days : nat) : option (list (gmap string value)) :=
  for_each window_programs (map fetch (Listing.download_windows utcoffset now days)).

(** The windows a request is made for, in order: the [try] encloses both
    loops, so the first window that raises is the last one requested. *)
Fixpoint requested (windows : list (Z * Z)) : list (Z * Z) :=
  match windows with
  | [] => []
  | w :: rest =>
      match window_programs (fetch w) with
      | None => [w]
      | Some _ => w :: requested rest
      end
  end.

Definition requested_windows (now : Z) (days : nat) : list (Z * Z) :=
  requested (Listing.download_windows utcoffset now days).
End Download.

End Download.

(** ** Credentials: [get_credentials_from_config] *)

Module Regex.

(** Regular expressions over characters, and matching by derivatives. *)
Inductive regex :=
| Empty
| Eps
| Class (p : ascii -> bool)
| Seq (r1 r2 : regex)
| Alt (r1 r2 : regex)
| Star (r : regex).

Definition Plus (r : regex) : regex := Seq r (Star r).

Fixpoint nullable (r : regex) : bool :=
  match r with
  | Empty => false
  | Eps => true
  | Class _ => false
  | Seq r1 r2 => nullable r1 && nullable r2
  | Alt r1 r2 => nullable r1 || nullable r2
  | Star _ => true
  end.

Fixpoint deriv (c : ascii) (r : regex) : regex :=
  match r with
  | Empty => Empty
  | Eps => Empty
  | Class p => if p c then Eps else Empty
  | Seq r1 r2 =>
      if nullable r1 then Alt (Seq (deriv c r1) r2) (deriv c r2)
      else Seq (deriv c r1) r2
  | Alt r1 r2 => Alt (deriv c r1) (deriv c r2)
  | Star r1 => Seq (deriv c r1) (Star r1)
  end.

(** The whole of [s] matches [r]. *)
Fixpoint matches (r : regex) (s : list ascii) : bool :=
  match s with
  | [] => nullable r
  | c :: s' => matches (deriv c r) s'
  end.

(** The words of a regular expression. *)
Inductive lang : regex -> list ascii -> Prop :=
| lang_eps : lang Eps []
| lang_class p c : p c = true -> lang (Class p) [c]
| lang_seq r1 r2 s1 s2 : lang r1 s1 -> lang r2 s2 -> lang (Seq r1 r2) (s1 ++ s2)
| lang_alt_l r1 r2 s : lang r1 s -> lang (Alt r1 r2) s
| lang_alt_r r1 r2 s : lang r2 s -> lang (Alt r1 r2) s
| lang_star_nil r : lang (Star r) []
| lang_star_cons r s1 s2 : lang r s1 -> lang (Star r) s2 -> lang (Star r) (s1 ++ s2).

End Regex.

Module Credentials.
Import Py Json Regex.

Definition in_range (lo hi c : ascii) : bool :=
  (N_of_ascii lo <=? N_of_ascii c)%N && (N_of_ascii c <=? N_of_ascii hi)%N.

(** [[A-Za-z]] *)
Definition is_letter (c : ascii) : bool := in_range "A" "Z" c || in_range "a" "z" c.

(** [[A-Za-z0-9.-]] *)
Definition is_domain_char (c : ascii) : bool :=
  is_letter c || in_range "0" "9" c || Ascii.eqb c "." || Ascii.eqb c "-".

(** [[A-Za-z0-9._%+-]] *)
Definition is_local_char (c : ascii) : bool :=
  is_letter c || in_range "0" "9" c || Ascii.eqb c "." || Ascii.eqb c "_"
  || Ascii.eqb c "%" || Ascii.eqb c "+" || Ascii.eqb c "-".

Definition newline : ascii := ascii_of_nat 10.

(** The pattern [^[A-Za-z0-9._%+-]+@[A-Za-z0-9.-]+\.[A-Za-z]{2,}$]
    without its two anchors. *)
Definition email_body : regex :=
  Seq (Plus (Class is_local_char))
    (Seq (Class (fun c => Ascii.eqb c "@"))
       (Seq (Plus (Class is_domain_char))
          (Seq (Class (fun c => Ascii.eqb c "."))
             (Seq (Class is_letter) (Seq (Class is_letter) (Star (Class is_letter))))))).

(** [re.match(email_pattern, s)] finds a match: [^] holds at the start,
    and [$] holds at the end of the string or before a newline that ends
    it. *)
Definition email_pattern : regex :=
  Seq email_body (Alt Eps (Class (fun c => Ascii.eqb c newline))).

Definition re_match_email (s : string) : bool :=
  matches email_pattern (list_ascii_of_string s).

(** How [get_credentials_from_config] ends: it returns the pair, calls
    [sys.exit(1)], or raises. *)
Inductive outcome :=
| Returned (email : string) (password : value)
| Exit
| Raised.

(** [get_credentials_from_config] on the parsed configuration. *)
Definition get_credentials_from_config (config : value) : outcome :=
  match obj_get "email" (VStr "") config, obj_get "password" (VStr "") config with
  | Some (VStr raw), Some password =>
      let email := Text.strip raw in
      if String.eqb email "" then Exit
      else if negb (truthy password) then Exit
      else if negb (re_match_email email) then Exit
      else Returned email password
  | _, _ => Raised
  end.

End Credentials.

(** * Properties *)

(** ** Text cleaning *)

Section TextFacts.
Import Text.

Lemma contains_append c s t :
  contains c (s +:+ t) = contains c s || contains c t.
Proof.
  induction s as [|a s IH]; simpl; [reflexivity|].
  rewrite IH. apply orb_assoc.
Qed.

Lemma replace_absent old new s :
  contains old s = false -> replace old new s = s.
Proof.
  induction s as [|a s IH]; simpl; intros H; [reflexivity|].
  apply orb_false_iff in H as [Ha Hs].
  rewrite Ha. f_equal. auto.
Qed.

(** After [replace(c, new)] the character [c] only occurs where [new]
    brings it. *)
Lemma contains_replace_self c new s :
  contains c new = false -> contains c (replace c new s) = false.
Proof.
  intros Hnew. induction s as [|a s IH]; simpl; [reflexivity|].
  destruct (Ascii.eqb a c) eqn:E.
  - rewrite contains_append, Hnew, IH. reflexivity.
  - simpl. rewrite E, IH. reflexivity.
Qed.

Lemma contains_replace_other c old new s :
  contains c new = false -> contains c s = false ->
  contains c (replace old new s) = false.
Proof.
  intros Hnew. induction s as [|a s IH]; simpl; intros H; [reflexivity|].
  apply orb_false_iff in H as [Ha Hs].
  destruct (Ascii.eqb a old).
  - rewrite contains_append, Hnew. simpl. auto.
  - simpl. rewrite Ha. simpl. auto.
Qed.

Lemma escape_no_lt text : contains "<" (escape text) = false.
Proof.
  unfold escape. apply contains_replace_other; [reflexivity|].
  apply contains_replace_self. reflexivity.
Qed.

Lemma sub_tags_no_lt s : contains "<" s = false -> sub_tags false s = s.
Proof.
  induction s as [|a s IH]; simpl; intros H; [reflexivity|].
  apply orb_false_iff in H as [Ha Hs].
  rewrite Ha. simpl. f_equal. auto.
Qed.

Lemma rstrip_id s : ends_with_space s = false -> rstrip s = s.
Proof.
  induction s as [|a s IH]; [reflexivity|].
  destruct s as [|b s].
  - simpl. intros ->. reflexivity.
  - intros H. change (ends_with_space (String b s) = false) in H.
    change (rstrip (String a (String b s)))
      with (match rstrip (String b s) with
            | EmptyString => if is_space a then EmptyString else String a EmptyString
            | r => String a r
            end).
    rewrite (IH H). reflexivity.
Qed.

Lemma lstrip_id s : starts_with_space s = false -> lstrip s = s.
Proof. destruct s as [|a s]; simpl; [reflexivity|]. intros ->. reflexivity. Qed.

Lemma strip_id s :
  starts_with_space s = false -> ends_with_space s = false -> strip s = s.
Proof. intros Hl Hr. unfold strip. rewrite (rstrip_id _ Hr). apply lstrip_id, Hl. Qed.

Lemma clean_text_escape text : _clean_text text = strip (escape text).
Proof.
  unfold _clean_text. destruct (String.eqb_spec text "") as [->|_]; [reflexivity|].
  unfold re_sub_tags. fold (escape text).
  rewrite sub_tags_no_lt by apply escape_no_lt. reflexivity.
Qed.
End TextFacts.

Example clean_text_plain : Text._clean_text "Tagesschau" = "Tagesschau".
Proof. reflexivity. Qed.

Example clean_text_amp : Text._clean_text "Tom & Jerry" = "Tom &amp; Jerry".
Proof. reflexivity. Qed.

Example re_sub_tags_raw : Text.re_sub_tags "a<b>c</b>d<e" = "acd<e".
Proof. reflexivity. Qed.

Example strip_both : Text.strip "  a b " = "a b".
Proof. reflexivity. Qed.

(** C2. The tag-removal step of [_clean_text] runs after the three
    substitutions, when no ['<'] is left: it never removes anything, so
    the result is the escaped text with surrounding whitespace removed,
    and a tag survives in escaped form, as on ["<b>Hi</b>"]; removing
    the tags before escaping would have given ["Hi"]. *)
Theorem C2_clean_text_keeps_escaped_tags :
  (forall text, Text.re_sub_tags (Text.escape text) = Text.escape text)
  /\ (forall text, Text._clean_text text = Text.strip (Text.escape text))
  /\ Text._clean_text "<b>Hi</b>" = "&lt;b&gt;Hi&lt;/b&gt;"
  /\ Text.strip (Text.escape (Text.re_sub_tags "<b>Hi</b>")) = "Hi".
Proof.
  split; [|split; [|split]].
  - intros text. apply sub_tags_no_lt, escape_no_lt.
  - apply clean_text_escape.
  - reflexivity.
  - reflexivity.
Qed.

(** ** Programme building *)

Section XmltvFacts.
Import Py Xmltv.
Variable repr : value -> string.
Variable strftime_local : Z -> result string.
Variable language : string.

Lemma build_programme_tag program e :
  build_programme repr strftime_local language program = Ok (Some e) ->
  tag_of e = "programme"
  /\ assoc "channel" (attrib_of e) = Some (get "cid" program)
  /\ required_present program = true.
Proof.
  unfold build_programme.
  destruct (required_present program); simpl; [|discriminate].
  repeat match goal with
         | |- context [Py.bind ?r _] => destruct r; simpl; [|discriminate]
         end.
  intros [= <-]. auto.
Qed.

Lemma build_programme_skip program :
  build_programme repr strftime_local language program = Ok None ->
  required_present program = false.
Proof.
  unfold build_programme.
  destruct (required_present program); simpl; [|reflexivity].
  repeat match goal with
         | |- context [Py.bind ?r _] => destruct r; simpl; [|discriminate]
         end.
  discriminate.
Qed.

Lemma build_programmes_channels data ps :
  build_programmes repr strftime_local language data = Ok ps ->
  Forall (fun e => tag_of e = "programme") ps
  /\ map (fun e => assoc "channel" (attrib_of e)) ps
     = map (fun p => Some (get "cid" p)) (filter required_present data).
Proof.
  revert ps. induction data as [|program rest IH]; simpl; intros ps.
  - intros [= <-]. split; [constructor | reflexivity].
  - destruct (build_programme repr strftime_local language program)
      as [[e|]|] eqn:E; simpl; [| |discriminate].
    + destruct (build_programmes repr strftime_local language rest)
        as [r|]; simpl; [|discriminate].
      intros [= <-]. destruct (IH r eq_refl) as [Ht Hc].
      apply build_programme_tag in E as (Et & Ec & Ep).
      rewrite filter_cons, decide_True by (rewrite Ep; exact I).
      simpl. rewrite Ec, Hc. split; [constructor; assumption | reflexivity].
    + destruct (build_programmes repr strftime_local language rest)
        as [r|]; simpl; [|discriminate].
      intros [= <-]. destruct (IH r eq_refl) as [Ht Hc].
      apply build_programme_skip in E.
      rewrite filter_cons, decide_False by (rewrite E; exact id).
      split; assumption.
Qed.

Lemma filter_programme_channels (channels : list (string * channel)) :
  filter (fun e => tag_of e = "programme")
         (map (channel_element language) channels) = [].
Proof.
  induction channels as [|[cid info] cs IH]; [reflexivity|].
  simpl. rewrite filter_cons, decide_False by discriminate. exact IH.
Qed.

Lemma filter_all_programmes ps :
  Forall (fun e => tag_of e = "programme") ps ->
  filter (fun e => tag_of e = "programme") ps = ps.
Proof.
  induction 1 as [|e ps He _ IH]; [reflexivity|].
  rewrite filter_cons, decide_True by assumption. f_equal. exact IH.
Qed.
End XmltvFacts.

(** C1 as stated fails: with the channel set [{"101"}], a record whose
    channel identifier is ["999"] and whose start, end and title are
    present is emitted as a [programme] element. *)
Lemma C1_unknown_channel_is_emitted :
  let channels := [("101", {| Xmltv.title := "ChannelA"; Xmltv.logo := "" |})] in
  let record : gmap string Py.value :=
    <["cid" := Py.VStr "999"]> (<["s" := Py.VInt 1700000000]>
      (<["e" := Py.VInt 1700001800]> (<["t" := Py.VStr "News"]> ∅))) in
  ("999" ∉ map fst channels)
  /\ exists tv,
       Xmltv.generate_xmltv (fun _ => "") (fun _ => Py.Ok "20231114231320 +0200")
                            "de" channels [record] = Py.Ok tv
       /\ Xmltv.programme_channels tv = [Some (Py.VStr "999")].
Proof.
  simpl. split.
  - intros H. apply list_elem_of_In in H. destruct H as [H|[]]. discriminate.
  - eexists. split; reflexivity.
Qed.

(** C1, amended. A record is skipped, without an error, exactly when its
    channel identifier, start, end or title is missing or empty. When the
    document is built, its [programme] elements are, in order, those of
    the records that carry all four, each with the record's own channel
    identifier; the channel set is not consulted. *)
Theorem C1_programmes_are_the_complete_records
    (repr : Py.value -> string) (strftime_local : Z -> Py.result string)
    (language : string) :
  (forall program,
     Xmltv.build_programme repr strftime_local language program = Py.Ok None
     <-> Xmltv.required_present program = false)
  /\ (forall (channels : list (string * Xmltv.channel))
             (data : list (gmap string Py.value)) (tv : Xmltv.element),
        Xmltv.generate_xmltv repr strftime_local language channels data = Py.Ok tv ->
        Xmltv.programme_channels tv
        = map (fun p => Some (Py.get "cid" p)) (filter Xmltv.required_present data)).
Proof.
  split.
  - intros program. split; [apply build_programme_skip|].
    intros H. unfold Xmltv.build_programme. rewrite H. reflexivity.
  - intros channels data tv. unfold Xmltv.generate_xmltv.
    destruct (Xmltv.build_programmes repr strftime_local language data)
      as [ps|] eqn:E; simpl; [|discriminate].
    intros [= <-]. apply build_programmes_channels in E as [Ht Hc].
    unfold Xmltv.programme_channels. simpl.
    rewrite filter_app, filter_programme_channels, filter_all_programmes by assumption.
    exact Hc.
Qed.

Lemma C1_programmes_are_the_complete_records_witness :
  let known : gmap string Py.value :=
    <["cid" := Py.VStr "101"]> (<["s" := Py.VInt 1700000000]>
      (<["e" := Py.VInt 1700001800]> (<["t" := Py.VStr "News"]> ∅))) in
  let untitled : gmap string Py.value :=
    <["cid" := Py.VStr "101"]> (<["s" := Py.VInt 1700001800]>
      (<["e" := Py.VInt 1700003600]> ∅)) in
  Xmltv.programme_channels
    (Xmltv.Element "tv"
       [("source-info-url", Py.VStr "https://zattoo.com/");
        ("source-data-url", Py.VStr "https://zattoo.com/");
        ("generator-info-name", Py.VStr "Zattoo EPG Grabber Python")]
       None
       [Xmltv.Element "programme"
          [("start", Py.VStr "20231114231320 +0200");
           ("stop", Py.VStr "20231114231320 +0200");
           ("channel", Py.VStr "101")]
          None
          [Xmltv.Element "title" [("lang", Py.VStr "de")] (Some (Py.VStr "News")) []]])
  = map (fun p => Some (Py.get "cid" p))
        (filter Xmltv.required_present [known; untitled]).
Proof.
  intros known untitled.
  apply (proj2 (C1_programmes_are_the_complete_records
                  (fun _ => "") (fun _ => Py.Ok "20231114231320 +0200") "de")
               [] [known; untitled]).
  reflexivity.
Defined.

(** C5 as stated fails on its own example: for season 2 and no episode
    the text is ["1.."], not ["1."]. *)
Lemma C5_season_2_text_is_not_1_dot :
  Xmltv.episode_text (Py.VInt 2) Py.VNone = Py.Ok "1.."
  /\ Xmltv.episode_text (Py.VInt 2) Py.VNone <> Py.Ok "1.".
Proof. split; [reflexivity | discriminate]. Qed.

(** C5, amended. For a record carrying a one-based season and/or episode
    number, an [episode-num] element is emitted whose text is the
    zero-based season, a dot, the zero-based episode, a dot, an absent
    number rendered as the empty string; for season 2 and no episode the
    text is ["1.."]. *)
Theorem C5_episode_num_text (season episode : option Z) :
  (forall n, season = Some n -> (1 <= n)%Z) ->
  (forall n, episode = Some n -> (1 <= n)%Z) ->
  season <> None \/ episode <> None ->
  Xmltv.episode_child (Xmltv.number_value season) (Xmltv.number_value episode)
  = Py.Ok [Xmltv.Element "episode-num" [("system", Py.VStr "xmltv_ns")]
             (Some (Py.VStr (Xmltv.component season +:+ "."
                             +:+ Xmltv.component episode +:+ "."))) []]
  /\ Xmltv.episode_text (Py.VInt 2) Py.VNone = Py.Ok "1..".
Proof.
  intros Hs He Hp. split; [|reflexivity].
  assert (Ht : forall o, (forall n, o = Some n -> (1 <= n)%Z) ->
                         Py.truthy (Xmltv.number_value o)
                         = match o with Some _ => true | None => false end).
  { intros [n|] H; simpl; [|reflexivity].
    specialize (H n eq_refl). destruct (Z.eqb_spec n 0); [lia | reflexivity]. }
  unfold Xmltv.episode_child, Xmltv.episode_text, Xmltv.zero_based.
  rewrite (Ht season Hs), (Ht episode He).
  destruct season as [s|], episode as [e|]; simpl; try reflexivity.
  destruct Hp as [Hp|Hp]; contradiction.
Qed.

Lemma C5_episode_num_text_witness :
  Xmltv.episode_child (Py.VInt 2) Py.VNone
  = Py.Ok [Xmltv.Element "episode-num" [("system", Py.VStr "xmltv_ns")]
             (Some (Py.VStr "1..")) []]
  /\ Xmltv.episode_text (Py.VInt 2) Py.VNone = Py.Ok "1..".
Proof.
  apply (C5_episode_num_text (Some 2%Z) None).
  - intros n [= <-]. lia.
  - intros n H. discriminate H.
  - left. discriminate.
Defined.

(** ** Listing windows *)

Section ListingFacts.
Import Listing.
Variable utcoffset : Z -> Z.

Lemma day_windows_window_at base_date (day : nat) :
  day_windows utcoffset (base_date + days_delta (Z.of_nat day))
  = map (window_at utcoffset base_date) (seq (4 * day) 4).
Proof.
  unfold day_windows, window_at, days_delta, hours_delta.
  cbn [seq map]. 
  repeat (f_equal; try lia).
Qed.

Lemma download_windows_window_at now (days : nat) :
  download_windows utcoffset now days
  = map (window_at utcoffset (replace_hour_6 now)) (seq 0 (4 * days)).
Proof.
  unfold download_windows. induction days as [|d IH]; [reflexivity|].
  rewrite seq_S, flat_map_app, IH. cbn [flat_map Nat.add]. rewrite app_nil_r.
  rewrite day_windows_window_at, <- map_app. f_equal.
  replace (4 * S d) with (4 * d + 4) by lia.
  rewrite seq_app. reflexivity.
Qed.

Lemma download_windows_lookup now (days k : nat) :
  k < 4 * days ->
  download_windows utcoffset now days !! k
  = Some (window_at utcoffset (replace_hour_6 now) k).
Proof.
  intros Hk. rewrite download_windows_window_at, list_lookup_fmap.
  rewrite lookup_seq_lt by assumption. reflexivity.
Qed.

Lemma download_windows_length now (days : nat) :
  length (download_windows utcoffset now days) = 4 * days.
Proof. rewrite download_windows_window_at, length_map, length_seq. reflexivity. Qed.
End ListingFacts.

Example download_windows_utc_one_day :
  Listing.download_windows (fun _ => 0%Z) 1000 1
  = [(21600, 43200); (43200, 64800); (64800, 86400); (86400, 108000)]%Z.
Proof. reflexivity. Qed.

(** ** Integers and their decimal text *)

Section PyFacts.
Import Py Text.

Lemma print_head d :
  d <> Decimal.Nil ->
  exists c r, NilEmpty.string_of_uint d = String c r
              /\ is_space c = false /\ Ascii.eqb c "_" = false
              /\ Ascii.eqb c "-" = false /\ Ascii.eqb c "+" = false.
Proof.
  destruct d; intros H; [contradiction|..];
    (eexists; eexists; split; [reflexivity | repeat split]).
Qed.

Lemma uint_of_digits_print d :
  d <> Decimal.Nil -> uint_of_digits (NilEmpty.string_of_uint d) = Some d.
Proof.
  induction d as [|d IH|d IH|d IH|d IH|d IH|d IH|d IH|d IH|d IH|d IH];
    intros H; [contradiction|..];
    (destruct (Decimal.uint_eq_dec d Decimal.Nil) as [->|Hd];
     [reflexivity|];
     destruct (print_head d Hd) as (c & r & E & _ & Hu & _);
     cbn [NilEmpty.string_of_uint uint_of_digits digit_of_ascii Ascii.eqb Bool.eqb];
     rewrite E, Hu, <- E, (IH Hd); reflexivity).
Qed.

Lemma ends_with_space_print d :
  ends_with_space (NilEmpty.string_of_uint d) = false.
Proof.
  induction d as [|d IH|d IH|d IH|d IH|d IH|d IH|d IH|d IH|d IH|d IH];
    [reflexivity|..];
    (cbn [NilEmpty.string_of_uint ends_with_space];
     destruct (NilEmpty.string_of_uint d); [reflexivity | exact IH]).
Qed.

Lemma length_print d :
  String.length (NilEmpty.string_of_uint d) = Decimal.nb_digits d.
Proof.
  induction d as [|d IH|d IH|d IH|d IH|d IH|d IH|d IH|d IH|d IH|d IH];
    [reflexivity|..]; (cbn [NilEmpty.string_of_uint String.length Decimal.nb_digits];
                       f_equal; exact IH).
Qed.

(** What [int()] skips is part of what [strip()] removes. *)
Lemma is_int_space_is_space c : is_int_space c = true -> is_space c = true.
Proof.
  destruct c as [[] [] [] [] [] [] [] []]; vm_compute; intros H;
    first [reflexivity | discriminate H].
Qed.

Lemma is_int_space_not_space c : is_space c = false -> is_int_space c = false.
Proof.
  intros H. destruct (is_int_space c) eqn:E; [|reflexivity].
  apply is_int_space_is_space in E. congruence.
Qed.

Lemma rskip_id s : ends_with_space s = false -> rskip s = s.
Proof.
  induction s as [|a s IH]; [reflexivity|].
  destruct s as [|b s].
  - simpl. intros H. rewrite (is_int_space_not_space _ H). reflexivity.
  - intros H. change (ends_with_space (String b s) = false) in H.
    change (rskip (String a (String b s)))
      with (match rskip (String b s) with
            | EmptyString => if is_int_space a then EmptyString else String a EmptyString
            | r => String a r
            end).
    rewrite (IH H). reflexivity.
Qed.

Lemma lskip_id s : starts_with_space s = false -> lskip s = s.
Proof.
  destruct s as [|a s]; simpl; [reflexivity|]. intros H.
  rewrite (is_int_space_not_space _ H). reflexivity.
Qed.

Lemma int_of_str_print d :
  d <> Decimal.Nil ->
  Decimal.nb_digits d <= int_max_str_digits ->
  int_of_str (NilEmpty.string_of_uint d) = Some (Z.of_uint d)
  /\ int_of_str (String "-" (NilEmpty.string_of_uint d)) = Some (- Z.of_uint d)%Z.
Proof.
  intros Hd Hn. destruct (print_head d Hd) as (c & r & E & Hs & _ & Hm & Hp).
  pose proof (uint_of_digits_print d Hd) as Hu.
  pose proof (ends_with_space_print d) as He.
  assert (Hl : literal_digits (NilEmpty.string_of_uint d) = Some d).
  { unfold literal_digits. rewrite Hu.
    destruct (Nat.leb_spec (Decimal.nb_digits d) int_max_str_digits); [reflexivity|lia]. }
  unfold int_of_str. split.
  - rewrite rskip_id by exact He. rewrite lskip_id by (rewrite E; exact Hs).
    rewrite E in *. rewrite Hm, Hp, Hl. reflexivity.
  - rewrite rskip_id by (rewrite E in *; exact He).
    rewrite lskip_id by reflexivity.
    cbn [Ascii.eqb Bool.eqb]. rewrite Hl. reflexivity.
Qed.

(** [int(str(n)) == n] for an integer within the digit limit. *)
Lemma int_of_str_str_of_int n :
  ndigits n <= int_max_str_digits -> int_of_str (str_of_int n) = Some n.
Proof.
  unfold ndigits.
  destruct n as [|p|p]; [reflexivity|..]; unfold str_of_int; simpl;
    pose proof (DecimalPos.Unsigned.to_uint_nonnil p) as Hd;
    unfold NilZero.string_of_uint;
    (destruct (Pos.to_uint p) eqn:E; try contradiction;
     rewrite length_print; intros Hn;
     destruct (int_of_str_print _ Hd Hn) as [Hpos Hneg]).
  all: first [ rewrite Hpos | rewrite Hneg ]; f_equal; unfold Z.of_uint;
    rewrite <- E, DecimalPos.Unsigned.of_to; reflexivity.
Qed.

End PyFacts.

(** ** Batches *)

Section BatchFacts.
Import Enrich.

Lemma range_from_length fuel start stop :
  stop - start <= fuel ->
  length (range_from fuel start stop batch_size) = (stop - start + 19) / 20.
Proof.
  revert start. induction fuel as [|fuel IH]; intros start Hf; cbn [range_from].
  - replace (stop - start) with 0 by lia. reflexivity.
  - destruct (Nat.ltb_spec start stop) as [Hlt|Hge].
    + cbn [length]. rewrite IH by (unfold batch_size; lia). unfold batch_size.
      destruct (Nat.le_gt_cases 20 (stop - start)) as [Hbig|Hsmall].
      * replace (stop - start + 19) with (stop - (start + 20) + 19 + 1 * 20) by lia.
        rewrite Nat.div_add by lia. lia.
      * replace (stop - (start + 20)) with 0 by lia.
        replace (stop - start + 19) with (stop - start - 1 + 1 * 20) by lia.
        rewrite Nat.div_add by lia.
        rewrite (Nat.div_small (stop - start - 1)) by lia. reflexivity.
    + replace (stop - start) with 0 by lia. reflexivity.
Qed.

Lemma range_from_concat {A} (l : list A) fuel start :
  length l - start <= fuel ->
  concat (map (fun i => slice l i (i + batch_size))
              (range_from fuel start (length l) batch_size))
  = drop start l.
Proof.
  revert start. induction fuel as [|fuel IH]; intros start Hf; simpl.
  - symmetry. apply drop_ge. lia.
  - destruct (Nat.ltb_spec start (length l)) as [Hlt|Hge].
    + simpl. rewrite IH by (unfold batch_size; lia).
      unfold slice. replace (start + batch_size - start) with batch_size by lia.
      rewrite <- drop_drop. apply take_drop.
    + symmetry. apply drop_ge. lia.
Qed.

Lemma batches_length ids : length (batches ids) = (length ids + 19) / 20.
Proof.
  unfold batches, range. rewrite length_map, range_from_length by lia.
  rewrite Nat.sub_0_r. reflexivity.
Qed.

Lemma batches_concat ids : concat (batches ids) = ids.
Proof. unfold batches, range. rewrite range_from_concat by lia. reflexivity. Qed.

Lemma range_from_bounds fuel start stop i :
  i ∈ range_from fuel start stop batch_size -> i < stop.
Proof.
  revert start. induction fuel as [|fuel IH]; intros start; simpl.
  - intros H. inversion H.
  - destruct (Nat.ltb_spec start stop) as [Hlt|Hge]; intros H.
    + apply elem_of_cons in H as [->|H]; [assumption | eauto].
    + inversion H.
Qed.

Lemma batches_nonempty ids b :
  b ∈ batches ids -> 0 < length b <= batch_size.
Proof.
  unfold batches, range. intros H. apply list_elem_of_fmap in H as (i & -> & Hi).
  apply range_from_bounds in Hi. unfold slice.
  rewrite length_take, length_drop. unfold batch_size. lia.
Qed.

Lemma concat_lookup_elem {A} (bs : list (list A)) k c (x : A) :
  bs !! k = Some c -> x ∈ c -> x ∈ concat bs.
Proof.
  revert k. induction bs as [|b bs IH]; intros [|k] Hk Hc; try discriminate;
    simpl in *; apply elem_of_app.
  - injection Hk as ->. left. assumption.
  - right. eauto.
Qed.

Lemma concat_NoDup_same_index {A} (bs : list (list A)) i j b1 b2 x :
  NoDup (concat bs) ->
  bs !! i = Some b1 -> bs !! j = Some b2 -> x ∈ b1 -> x ∈ b2 -> i = j.
Proof.
  revert i j. induction bs as [|b bs IH]; intros i j Hnd Hi Hj H1 H2.
  - discriminate.
  - simpl in Hnd. apply NoDup_app in Hnd as (Hb & Hdisj & Hrest).
    assert (Hin : forall k c, bs !! k = Some c -> x ∈ c -> x ∈ concat bs).
    { intros k c Hk Hc. eapply concat_lookup_elem; eassumption. }
    destruct i as [|i], j as [|j]; simpl in Hi, Hj.
    + reflexivity.
    + injection Hi as <-. exfalso. eapply Hdisj; eauto.
    + injection Hj as <-. exfalso. eapply Hdisj; eauto.
    + f_equal. eauto.
Qed.
End BatchFacts.

(** ** The retry loop *)

Section RetryFacts.
Import Py Enrich.
Variable repr : value -> string.
Variable server : nat -> list string -> gmap key (gmap string value).

Lemma is_empty_true d : is_empty d = true <-> d = ∅.
Proof. unfold is_empty. apply bool_decide_eq_true. Qed.

Lemma is_empty_false d : is_empty d = false <-> d <> ∅.
Proof. unfold is_empty. apply bool_decide_eq_false. Qed.

Lemma is_empty_empty : is_empty ∅ = true.
Proof. apply is_empty_true. reflexivity. Qed.

Lemma retry_loop_step fuel batch retry_count batch_details st :
  retry_loop server (S fuel) batch retry_count batch_details st
  = if (retry_count <? max_retries)%Z && is_empty batch_details then
      let batch_details := server (requests st) batch in
      let st := count_request (emit (Request batch) st) in
      if is_empty batch_details then
        let retry_count := (retry_count + 1)%Z in
        if (retry_count <? max_retries)%Z then
          retry_loop server fuel batch retry_count batch_details
                     (emit (SleepSeconds (2 ^ retry_count)) st)
        else
          retry_loop server fuel batch retry_count batch_details
                     (add_connection_error st)
      else retry_loop server fuel batch retry_count batch_details st
    else (retry_count, batch_details, st).
Proof. reflexivity. Qed.

(** The loop always stops because its condition fails, never for lack
    of fuel. *)
Lemma retry_loop_exit_gen fuel batch retry_count batch_details st :
  Z.to_nat (max_retries - retry_count) < fuel ->
  let '(retry_count', batch_details', _) :=
    retry_loop server fuel batch retry_count batch_details st in
  (retry_count' <? max_retries)%Z && is_empty batch_details' = false.
Proof.
  revert retry_count batch_details st.
  induction fuel as [|fuel IH]; intros rc bd st Hf; [lia|].
  rewrite retry_loop_step.
  destruct ((rc <? max_retries)%Z && is_empty bd) eqn:C; [|exact C].
  apply andb_true_iff in C as [Hrc _]. apply Z.ltb_lt in Hrc.
  cbv zeta.
  destruct (is_empty (server (requests st) batch)) eqn:E.
  - destruct (rc + 1 <? max_retries)%Z; apply IH; lia.
  - destruct fuel as [|fuel]; [lia|].
    rewrite retry_loop_step, E, andb_false_r. rewrite E. apply andb_false_r.
Qed.

Lemma retry_loop_exit batch st :
  let '(retry_count, batch_details, _) := fetch_with_retry server batch st in
  (retry_count <? max_retries)%Z && is_empty batch_details = false.
Proof.
  unfold fetch_with_retry. apply retry_loop_exit_gen.
  unfold max_retries. simpl. lia.
Qed.

Ltac run_retry :=
  unfold fetch_with_retry; change (S (Z.to_nat max_retries)) with 4;
  repeat (rewrite retry_loop_step;
          cbn [requests emit count_request add_connection_error];
          rewrite ?is_empty_empty;
          repeat match goal with
                 | H : ?d = ∅ |- context [is_empty ?d] => rewrite H, ?is_empty_empty
                 | H : is_empty ?d = false |- context [is_empty ?d] => rewrite H
                 end;
          cbn [andb Z.ltb Z.add Z.compare Pos.compare Pos.compare_cont Pos.add
               Pos.succ max_retries];
          rewrite ?andb_false_r).

Lemma fetch_first batch st :
  server (requests st) batch <> ∅ ->
  fetch_with_retry server batch st
  = (0%Z, server (requests st) batch, count_request (emit (Request batch) st)).
Proof. intros H0%is_empty_false. run_retry. reflexivity. Qed.

Lemma fetch_second batch st :
  server (requests st) batch = ∅ ->
  server (S (requests st)) batch <> ∅ ->
  fetch_with_retry server batch st
  = (1%Z, server (S (requests st)) batch,
     count_request (emit (Request batch)
       (emit (SleepSeconds 2) (count_request (emit (Request batch) st))))).
Proof. intros H0 H1%is_empty_false. run_retry. reflexivity. Qed.

Lemma fetch_third batch st :
  server (requests st) batch = ∅ ->
  server (S (requests st)) batch = ∅ ->
  server (S (S (requests st))) batch <> ∅ ->
  fetch_with_retry server batch st
  = (2%Z, server (S (S (requests st))) batch,
     count_request (emit (Request batch)
       (emit (SleepSeconds 4) (count_request (emit (Request batch)
         (emit (SleepSeconds 2) (count_request (emit (Request batch) st)))))))).
Proof. intros H0 H1 H2%is_empty_false. run_retry. reflexivity. Qed.

Lemma fetch_exhausted batch st :
  server (requests st) batch = ∅ ->
  server (S (requests st)) batch = ∅ ->
  server (S (S (requests st))) batch = ∅ ->
  fetch_with_retry server batch st
  = (3%Z, ∅,
     add_connection_error (count_request (emit (Request batch)
       (emit (SleepSeconds 4) (count_request (emit (Request batch)
         (emit (SleepSeconds 2) (count_request (emit (Request batch) st))))))))).
Proof. intros H0 H1 H2. run_retry. reflexivity. Qed.
End RetryFacts.

(** ** Merging and the batch loop *)

Section MergeFacts.
Import Py Enrich.
Variable repr : value -> string.
Variable server : nat -> list string -> gmap key (gmap string value).

Lemma state_eq (s t : state) :
  epg_data s = epg_data t -> enhanced_count s = enhanced_count t ->
  failed_count s = failed_count t -> connection_errors s = connection_errors t ->
  requests s = requests t -> trace s = trace t -> s = t.
Proof. destruct s, t; simpl; intros; subst; reflexivity. Qed.

(** The identifier test for an identifier [int()] accepts. *)
Lemma id_matches_numeric v program_id n :
  int_of_str program_id = Some n ->
  id_matches repr v program_id
  = Ok (String.eqb (str repr v) program_id || eq_int v n).
Proof.
  intros H. unfold id_matches. destruct (String.eqb _ _); [reflexivity|].
  simpl. rewrite H. reflexivity.
Qed.

Lemma id_matches_same_text v program_id :
  str repr v = program_id -> id_matches repr v program_id = Ok true.
Proof. intros <-. unfold id_matches. rewrite String.eqb_refl. reflexivity. Qed.

Lemma id_matches_raise v program_id :
  int_of_str program_id = None -> str repr v <> program_id ->
  id_matches repr v program_id = Raise ValueError.
Proof.
  intros H Hne. unfold id_matches.
  destruct (String.eqb_spec (str repr v) program_id); [contradiction|].
  simpl. rewrite H. reflexivity.
Qed.

Lemma update_first_numeric program_id n details data :
  int_of_str program_id = Some n ->
  exists r, update_first repr program_id details data = Ok r.
Proof.
  intros H. induction data as [|program rest [r IH]]; simpl; [eauto|].
  rewrite (id_matches_numeric _ _ _ H). simpl.
  destruct (_ || _); [eauto|]. rewrite IH. simpl. eauto.
Qed.

Lemma update_first_found program_id details pre r post :
  Forall (fun p => id_matches repr (get "id" p) program_id = Ok false) pre ->
  id_matches repr (get "id" r) program_id = Ok true ->
  update_first repr program_id details (pre ++ r :: post)%list
  = Ok (Some (pre ++ (details ∪ r) :: post)%list).
Proof.
  intros Hpre Hr. induction Hpre as [|p pre Hp _ IH]; simpl.
  - rewrite Hr. reflexivity.
  - rewrite Hp. simpl. rewrite IH. reflexivity.
Qed.

Lemma merge_one_frame batch_details program_id st be st' be' :
  merge_one repr batch_details program_id (st, be) = Ok (st', be') ->
  connection_errors st' = connection_errors st
  /\ requests st' = requests st /\ trace st' = trace st.
Proof.
  unfold merge_one. destruct (batch_details !! KStr program_id) as [details|].
  - destruct (update_first repr program_id details (epg_data st)) as [[data|]|];
      simpl; intros H; [| |discriminate H];
      injection H as <- <-; auto.
  - intros H. injection H as <- <-. auto.
Qed.

Lemma merge_batch_frame batch_details batch st be st' be' :
  merge_batch repr batch_details batch (st, be) = Ok (st', be') ->
  connection_errors st' = connection_errors st
  /\ requests st' = requests st /\ trace st' = trace st.
Proof.
  revert st be. induction batch as [|program_id rest IH]; intros st be;
    cbn [merge_batch].
  - intros [= <- <-]. auto.
  - destruct (merge_one repr batch_details program_id (st, be))
      as [[st1 be1]|] eqn:E; cbn [bind]; [|discriminate].
    intros H. apply IH in H as (-> & -> & ->). eapply merge_one_frame, E.
Qed.

Lemma merge_batch_empty batch st be :
  merge_batch repr ∅ batch (st, be)
  = Ok ({| epg_data := epg_data st; enhanced_count := enhanced_count st;
           failed_count := failed_count st + Z.of_nat (length batch);
           connection_errors := connection_errors st;
           requests := requests st; trace := trace st |}, be).
Proof.
  revert st. induction batch as [|program_id rest IH]; intros st.
  - simpl. do 2 f_equal. apply state_eq; simpl; try reflexivity. lia.
  - cbn [merge_batch]. unfold merge_one at 1. rewrite lookup_empty.
    cbn [bind]. rewrite IH. do 2 f_equal. apply state_eq; simpl; try reflexivity.
    lia.
Qed.

Lemma process_batch_exhausted batch st :
  server (requests st) batch = ∅ ->
  server (S (requests st)) batch = ∅ ->
  server (S (S (requests st))) batch = ∅ ->
  process_batch repr server batch st = Ok (after_exhausted batch st).
Proof.
  intros H0 H1 H2. unfold process_batch.
  rewrite (fetch_exhausted server batch st H0 H1 H2), merge_batch_empty.
  simpl. f_equal. apply state_eq; simpl; try reflexivity; try lia.
  rewrite <- !app_assoc. reflexivity.
Qed.

Lemma exhausted_true n batch :
  exhausted server n batch = true
  <-> server n batch = ∅ /\ server (S n) batch = ∅ /\ server (S (S n)) batch = ∅.
Proof.
  unfold exhausted. rewrite !andb_true_iff, !is_empty_true. tauto.
Qed.

(** A batch adds one to [connection_errors] when its three attempts
    fail and leaves the counter as it is otherwise. *)
Lemma process_batch_connection_errors batch st st' :
  process_batch repr server batch st = Ok st' ->
  connection_errors st'
  = (connection_errors st
     + if exhausted server (requests st) batch then 1 else 0)%Z.
Proof.
  unfold process_batch.
  destruct (fetch_with_retry server batch st) as [[rc bd] st1] eqn:F.
  destruct (merge_batch repr bd batch (st1, 0%Z)) as [[st2 be]|] eqn:M;
    simpl; [|discriminate].
  apply merge_batch_frame in M as (Hc & _ & _).
  intros H.
  assert (Hst : connection_errors st' = connection_errors st1).
  { destruct (be =? 0)%Z; injection H as <-; simpl; exact Hc. }
  rewrite Hst. clear H Hst Hc.
  destruct (exhausted server (requests st) batch) eqn:X.
  - apply exhausted_true in X as (H0 & H1 & H2).
    rewrite (fetch_exhausted server batch st H0 H1 H2) in F.
    injection F as <- <- <-. reflexivity.
  - unfold exhausted in X.
    destruct (is_empty (server (requests st) batch)) eqn:E0.
    + apply is_empty_true in E0.
      destruct (is_empty (server (S (requests st)) batch)) eqn:E1.
      * apply is_empty_true in E1. simpl in X. apply is_empty_false in X.
        rewrite (fetch_third server batch st E0 E1 X) in F.
        injection F as <- <- <-. simpl. lia.
      * apply is_empty_false in E1.
        rewrite (fetch_second server batch st E0 E1) in F.
        injection F as <- <- <-. simpl. lia.
    + apply is_empty_false in E0.
      rewrite (fetch_first server batch st E0) in F.
      injection F as <- <- <-. simpl. lia.
Qed.

Lemma request_batches_app t1 t2 :
  request_batches (t1 ++ t2)%list = (request_batches t1 ++ request_batches t2)%list.
Proof. apply omap_app. Qed.

Lemma process_batch_answered batch st st' :
  server (requests st) batch <> ∅ ->
  process_batch repr server batch st = Ok st' ->
  connection_errors st' = connection_errors st
  /\ requests st' = S (requests st)
  /\ request_batches (trace st') = (request_batches (trace st) ++ [batch])%list.
Proof.
  intros H0. unfold process_batch. rewrite (fetch_first server batch st H0).
  destruct (merge_batch repr _ batch _) as [[st2 be]|] eqn:M;
    simpl; [|discriminate].
  apply merge_batch_frame in M as (Hc & Hr & Ht). simpl in Hc, Hr, Ht.
  intros H.
  destruct (be =? 0)%Z; injection H as <-; simpl;
    rewrite Hc, Hr, Ht, !request_batches_app; simpl;
    rewrite app_nil_r; auto.
Qed.

Lemma batch_loop_answered bs st st' :
  (forall n b, server n b <> ∅) ->
  (connection_errors st <= 5)%Z ->
  batch_loop repr server bs st = Ok st' ->
  requests st' = requests st + length bs
  /\ request_batches (trace st') = (request_batches (trace st) ++ bs)%list.
Proof.
  intros Hs. revert st. induction bs as [|batch rest IH]; intros st Hc; simpl.
  - intros [= <-]. rewrite app_nil_r. split; [lia | reflexivity].
  - destruct (process_batch repr server batch st) as [st1|] eqn:P;
      simpl; [|discriminate].
    apply process_batch_answered in P as (Hc1 & Hr1 & Ht1); [|apply Hs].
    destruct (Z.gtb_spec (connection_errors st1) 5) as [Hgt|Hle]; [lia|].
    intros H. apply IH in H as [Hr Ht]; [|lia].
    rewrite Hr, Ht, Hr1, Ht1, <- app_assoc. split; [lia | reflexivity].
Qed.

(** A run of exhausted batches that brings the counter from [6 - k] to
    6 ends the loop after its [k]-th batch. *)
Lemma batch_loop_exhausted k : forall bs st,
  1 <= k <= length bs ->
  connection_errors st = (6 - Z.of_nat k)%Z ->
  (forall m b, requests st <= m < requests st + 3 * k -> server m b = ∅) ->
  batch_loop repr server bs st
  = Ok (fold_left (fun s b => after_exhausted b s) (take k bs) st).
Proof.
  induction k as [|k IH]; intros bs st Hk Hc Hs; [lia|].
  destruct bs as [|batch rest]; [simpl in Hk; lia|].
  cbn [batch_loop take fold_left].
  rewrite process_batch_exhausted by (apply Hs; lia). cbn [bind].
  destruct (Z.gtb_spec (connection_errors (after_exhausted batch st)) 5)
    as [Hgt|Hle].
  - simpl in Hgt. destruct k as [|k]; [reflexivity | lia].
  - simpl in Hle. apply IH; simpl in *; try lia.
    intros m b Hm. apply Hs. lia.
Qed.

Lemma fold_after_exhausted bs st :
  let st' := fold_left (fun s b => after_exhausted b s) bs st in
  epg_data st' = epg_data st /\ enhanced_count st' = enhanced_count st
  /\ connection_errors st' = (connection_errors st + Z.of_nat (length bs))%Z
  /\ requests st' = requests st + 3 * length bs.
Proof.
  revert st. induction bs as [|b bs IH]; intros st; simpl.
  - repeat split; lia.
  - destruct (IH (after_exhausted b st)) as (-> & -> & -> & ->). simpl.
    repeat split; lia.
Qed.
End MergeFacts.

(** ** The claims on the Detail Enricher *)

Example fetch_dead_server :
  Enrich.fetch_with_retry Enrich.dead_server ["1"] (Enrich.initial [])
  = (3%Z, ∅,
     {| Enrich.epg_data := []; Enrich.enhanced_count := 0;
        Enrich.failed_count := 0; Enrich.connection_errors := 1;
        Enrich.requests := 3;
        Enrich.trace := [Enrich.Request ["1"]; Enrich.SleepSeconds 2;
                         Enrich.Request ["1"]; Enrich.SleepSeconds 4;
                         Enrich.Request ["1"]] |}).
Proof. reflexivity. Qed.

(** C3. A batch whose three attempts all return no details is requested
    three times, with sleeps of 2 and 4 seconds between the attempts. The
    sleep is guarded by [retry_count < max_retries], so after the third
    attempt nothing is slept: the 8 seconds of the comment beside the
    computation ("Exponential backoff: 2s, 4s, 8s") never take place. *)
Lemma C3_no_eight_second_sleep :
  let st := snd (Enrich.fetch_with_retry Enrich.dead_server ["1"] (Enrich.initial [])) in
  Enrich.trace st = [Enrich.Request ["1"]; Enrich.SleepSeconds 2;
                     Enrich.Request ["1"]; Enrich.SleepSeconds 4;
                     Enrich.Request ["1"]]
  /\ Enrich.SleepSeconds 8 ∉ Enrich.trace st.
Proof.
  split; [reflexivity|]. simpl. intros H.
  repeat (apply elem_of_cons in H as [H|H]; [discriminate H|]).
  inversion H.
Qed.

(** The retry schedule for every pattern of answers. A batch is
    requested at most three times: a request that returns no details is
    repeated after a sleep of 2 seconds, and once more after a sleep of
    4 seconds. When the third attempt fails too, no further sleep or
    request follows, the batch counts as one connection error, and the
    run goes on: the batch is processed without raising, its identifiers
    counted as failed. *)
Theorem C3_retry_schedule (repr : Py.value -> string)
    (server : nat -> list string -> gmap Enrich.key (gmap string Py.value))
    (batch : list string) (st : Enrich.state) :
  let n := Enrich.requests st in
  let '(retry_count, batch_details, st') := Enrich.fetch_with_retry server batch st in
  (server n batch <> ∅ ->
     batch_details = server n batch
     /\ Enrich.trace st' = (Enrich.trace st ++ [Enrich.Request batch])%list
     /\ Enrich.connection_errors st' = Enrich.connection_errors st)
  /\ (server n batch = ∅ -> server (S n) batch <> ∅ ->
     batch_details = server (S n) batch
     /\ Enrich.trace st' = (Enrich.trace st ++
          [Enrich.Request batch; Enrich.SleepSeconds 2; Enrich.Request batch])%list
     /\ Enrich.connection_errors st' = Enrich.connection_errors st)
  /\ (server n batch = ∅ -> server (S n) batch = ∅ -> server (S (S n)) batch <> ∅ ->
     batch_details = server (S (S n)) batch
     /\ Enrich.trace st' = (Enrich.trace st ++
          [Enrich.Request batch; Enrich.SleepSeconds 2; Enrich.Request batch;
           Enrich.SleepSeconds 4; Enrich.Request batch])%list
     /\ Enrich.connection_errors st' = Enrich.connection_errors st)
  /\ (server n batch = ∅ -> server (S n) batch = ∅ -> server (S (S n)) batch = ∅ ->
     batch_details = ∅
     /\ Enrich.trace st' = (Enrich.trace st ++
          [Enrich.Request batch; Enrich.SleepSeconds 2; Enrich.Request batch;
           Enrich.SleepSeconds 4; Enrich.Request batch])%list
     /\ Enrich.connection_errors st' = (Enrich.connection_errors st + 1)%Z
     /\ Enrich.process_batch repr server batch st
        = Py.Ok (Enrich.after_exhausted batch st)).
Proof.
  intros n. subst n.
  destruct (Enrich.fetch_with_retry server batch st) as [[rc bd] st'] eqn:F.
  split; [|split; [|split]].
  - intros H0. rewrite (fetch_first server batch st H0) in F.
    injection F as <- <- <-. simpl. auto.
  - intros H0 H1. rewrite (fetch_second server batch st H0 H1) in F.
    injection F as <- <- <-. simpl. rewrite <- !app_assoc. auto.
  - intros H0 H1 H2. rewrite (fetch_third server batch st H0 H1 H2) in F.
    injection F as <- <- <-. simpl. rewrite <- !app_assoc. auto.
  - intros H0 H1 H2. rewrite (fetch_exhausted server batch st H0 H1 H2) in F.
    injection F as <- <- <-. simpl. rewrite <- !app_assoc.
    repeat split. apply process_batch_exhausted; assumption.
Qed.

Lemma C3_retry_schedule_witness :
  Enrich.trace (snd (Enrich.fetch_with_retry Enrich.dead_server ["7"; "8"]
                                             (Enrich.initial [])))
  = [Enrich.Request ["7"; "8"]; Enrich.SleepSeconds 2; Enrich.Request ["7"; "8"];
     Enrich.SleepSeconds 4; Enrich.Request ["7"; "8"]]
  /\ Enrich.process_batch (fun _ => "") Enrich.dead_server ["7"; "8"] (Enrich.initial [])
     = Py.Ok (Enrich.after_exhausted ["7"; "8"] (Enrich.initial [])).
Proof.
  pose proof (C3_retry_schedule (fun _ => "") Enrich.dead_server ["7"; "8"]
                                (Enrich.initial [])) as H.
  simpl in H. destruct H as (_ & _ & _ & H).
  destruct (H eq_refl eq_refl eq_refl) as (_ & Ht & _ & Hp).
  split; [exact Ht | exact Hp].
Defined.

(** C4 as stated fails: the counter is not reset by a successful batch.
    With 141 records (8 batches) and a source that answers only the
    tenth request, batches 1 to 3 exhaust their attempts, batch 4 is
    answered and enriches a record, batches 5 to 7 exhaust their
    attempts, and the loop stops there, never requesting batch 8,
    although no more than three exhausted batches were consecutive. *)
Lemma C4_abort_without_six_consecutive :
  let data := Enrich.numbered_records 141 in
  length (Enrich.batches (Enrich.program_ids (fun _ => "") data)) = 8
  /\ exists st,
       Enrich.enhance_loop (fun _ => "") Enrich.tenth_only_server data = Py.Ok st
       /\ map head (Enrich.request_batches (Enrich.trace st))
          = [Some "1"; Some "1"; Some "1"; Some "21"; Some "21"; Some "21";
             Some "41"; Some "41"; Some "41"; Some "61";
             Some "81"; Some "81"; Some "81"; Some "101"; Some "101"; Some "101";
             Some "121"; Some "121"; Some "121"]
       /\ Enrich.enhanced_count st = 1%Z
       /\ Enrich.connection_errors st = 6%Z.
Proof.
  split; [vm_compute; reflexivity|].
  eexists. split; [vm_compute; reflexivity|].
  repeat split; vm_compute; reflexivity.
Qed.

(** C4, amended. The enricher keeps a running total of the batches whose
    attempts were all exhausted; a batch adds one to it when its three
    attempts fail and leaves it unchanged otherwise. As soon as the total
    exceeds 5 the loop stops: when the [k] batches that bring the total
    from [6 - k] to 6 all fail, the run ends after the [k]-th of them,
    with the records and the count of enriched records as they were
    before those batches. In particular six exhausted batches at the
    start of a run end it after 18 requests with the records unchanged. *)
Theorem C4_cumulative_abort (repr : Py.value -> string)
    (server : nat -> list string -> gmap Enrich.key (gmap string Py.value)) :
  (forall batch st st',
     Enrich.process_batch repr server batch st = Py.Ok st' ->
     Enrich.connection_errors st'
     = (Enrich.connection_errors st
        + if Enrich.exhausted server (Enrich.requests st) batch then 1 else 0)%Z)
  /\ (forall (k : nat) bs st,
        1 <= k <= length bs ->
        Enrich.connection_errors st = (6 - Z.of_nat k)%Z ->
        (forall m b, Enrich.requests st <= m < Enrich.requests st + 3 * k ->
                     server m b = ∅) ->
        exists st',
          Enrich.batch_loop repr server bs st = Py.Ok st'
          /\ Enrich.epg_data st' = Enrich.epg_data st
          /\ Enrich.enhanced_count st' = Enrich.enhanced_count st
          /\ Enrich.connection_errors st' = 6%Z
          /\ Enrich.requests st' = Enrich.requests st + 3 * k)
  /\ (forall data,
        6 <= length (Enrich.batches (Enrich.program_ids repr data)) ->
        (forall m b, m < 18 -> server m b = ∅) ->
        exists st',
          Enrich.enhance_loop repr server data = Py.Ok st'
          /\ Enrich.epg_data st' = data
          /\ Enrich.enhanced_count st' = 0%Z
          /\ Enrich.connection_errors st' = 6%Z
          /\ Enrich.requests st' = 18).
Proof.
  assert (Hrun : forall (k : nat) bs st,
        1 <= k <= length bs ->
        Enrich.connection_errors st = (6 - Z.of_nat k)%Z ->
        (forall m b, Enrich.requests st <= m < Enrich.requests st + 3 * k ->
                     server m b = ∅) ->
        exists st',
          Enrich.batch_loop repr server bs st = Py.Ok st'
          /\ Enrich.epg_data st' = Enrich.epg_data st
          /\ Enrich.enhanced_count st' = Enrich.enhanced_count st
          /\ Enrich.connection_errors st' = 6%Z
          /\ Enrich.requests st' = Enrich.requests st + 3 * k).
  { intros k bs st Hk Hc Hs. eexists. split.
    - apply (batch_loop_exhausted repr server k); assumption.
    - destruct (fold_after_exhausted (take k bs) st) as (He & Hn & Hce & Hr).
      rewrite length_take in Hce, Hr.
      replace (k `min` length bs) with k in * by lia.
      repeat split; try assumption; lia. }
  split; [|split].
  - apply process_batch_connection_errors.
  - exact Hrun.
  - intros data Hlen Hs. unfold Enrich.enhance_loop.
    apply (Hrun 6); [lia | reflexivity |].
    intros m b Hm. apply Hs. simpl in Hm. lia.
Qed.

Lemma C4_cumulative_abort_witness :
  exists st',
    Enrich.enhance_loop (fun _ => "") Enrich.dead_server (Enrich.numbered_records 121)
    = Py.Ok st'
    /\ Enrich.epg_data st' = Enrich.numbered_records 121
    /\ Enrich.enhanced_count st' = 0%Z
    /\ Enrich.connection_errors st' = 6%Z
    /\ Enrich.requests st' = 18.
Proof.
  apply (proj2 (proj2 (C4_cumulative_abort (fun _ => "") Enrich.dead_server))).
  - vm_compute. lia.
  - intros m b _. reflexivity.
Defined.

(** C7 as stated fails for a record that shares its id with an earlier
    one. Two records carry the integer id 123 and the source returns
    details under the key ["123"]: the scan stops at the first record
    passing the test, so both rounds overlay the first record and the
    second one is left without details, although it is counted. *)
Lemma C7_later_record_is_not_overlaid :
  let details : gmap string Py.value := {["d" := Py.VStr "Wetter"]} in
  let first : gmap string Py.value := {["id" := Py.VInt 123; "t" := Py.VStr "A"]} in
  let second : gmap string Py.value := {["id" := Py.VInt 123; "t" := Py.VStr "B"]} in
  let server : nat -> list string -> gmap Enrich.key (gmap string Py.value) :=
    fun _ _ => {[Enrich.KStr "123" := details]} in
  Enrich.program_ids (fun _ => "") [first; second] = ["123"; "123"]
  /\ exists st, Enrich.enhance_loop (fun _ => "") server [first; second] = Py.Ok st
                /\ Enrich.epg_data st = [details ∪ first; second]
                /\ Py.get "d" second = Py.VNone
                /\ Enrich.enhanced_count st = 2%Z.
Proof.
  intros details first second server. split; [reflexivity|].
  eexists. split; [vm_compute; reflexivity|]. repeat split.
Qed.

(** C7, amended. The detail map is keyed by strings. A record whose id is
    stored as the integer [n] is matched by details keyed by the decimal
    string of [n], and a record whose id is stored as a string by details
    keyed by that string: when no earlier record passes the identifier
    test for the key, the details are overlaid onto this record, every
    detail field replacing the record's own and the other fields
    staying, and the records after it are left as they are. *)
Theorem C7_string_key_matches (repr : Py.value -> string) (program_id : string)
    (batch_details : gmap Enrich.key (gmap string Py.value))
    (details : gmap string Py.value)
    (pre post : list (gmap string Py.value)) (r : gmap string Py.value)
    (st : Enrich.state) (batch_enhanced : Z) :
  batch_details !! Enrich.KStr program_id = Some details ->
  Enrich.epg_data st = (pre ++ r :: post)%list ->
  (exists n, Py.get "id" r = Py.VInt n /\ program_id = Py.str_of_int n)
  \/ Py.get "id" r = Py.VStr program_id ->
  Forall (fun p => Enrich.id_matches repr (Py.get "id" p) program_id = Py.Ok false) pre ->
  Enrich.merge_one repr batch_details program_id (st, batch_enhanced)
  = Py.Ok (Enrich.add_enhanced
             (Enrich.set_epg_data (pre ++ (details ∪ r) :: post)%list st),
           (batch_enhanced + 1)%Z)
  /\ (forall k v, details !! k = Some v -> (details ∪ r) !! k = Some v)
  /\ (forall k, details !! k = None -> (details ∪ r) !! k = r !! k).
Proof.
  intros Hd He Hr Hpre. split; [|split].
  - unfold Enrich.merge_one. rewrite Hd, He.
    rewrite (update_first_found repr); [reflexivity | exact Hpre |].
    apply id_matches_same_text. destruct Hr as [(n & -> & ->) | ->]; reflexivity.
  - intros k v Hk. apply lookup_union_Some_l. exact Hk.
  - intros k Hk. apply lookup_union_r. exact Hk.
Qed.

Lemma C7_string_key_matches_witness :
  let details : gmap string Py.value := {["d" := Py.VStr "Wetter"]} in
  let other : gmap string Py.value := {["id" := Py.VStr "122"]} in
  let record : gmap string Py.value := {["id" := Py.VInt 123]} in
  let st := Enrich.initial [other; record] in
  Enrich.merge_one (fun _ => "") {[Enrich.KStr "123" := details]} "123" (st, 0%Z)
  = Py.Ok (Enrich.add_enhanced (Enrich.set_epg_data [other; details ∪ record] st), 1%Z).
Proof.
  intros details other record st.
  apply (C7_string_key_matches (fun _ => "") "123" {[Enrich.KStr "123" := details]}
           details [other] [] record st 0).
  - reflexivity.
  - reflexivity.
  - left. exists 123%Z. split; reflexivity.
  - constructor; [reflexivity | constructor].
Defined.

(** C10. When details were returned for an identifier that [int()]
    rejects and the first record scanned does not have that identifier
    as its text, the numeric comparison is reached and the merge raises
    [ValueError]. When the first record does have the identifier as its
    text, the comparison is not reached and the details are overlaid
    onto it, whatever the identifier is. *)
Theorem C10_non_numeric_identifier_raises (repr : Py.value -> string)
    (batch_details : gmap Enrich.key (gmap string Py.value))
    (program_id : string) (st : Enrich.state) (batch_enhanced : Z)
    (details first : gmap string Py.value) (rest : list (gmap string Py.value)) :
  batch_details !! Enrich.KStr program_id = Some details ->
  Enrich.epg_data st = first :: rest ->
  (Py.int_of_str program_id = None ->
   Py.str repr (Py.get "id" first) <> program_id ->
   Enrich.merge_one repr batch_details program_id (st, batch_enhanced)
   = Py.Raise Py.ValueError)
  /\ (Py.str repr (Py.get "id" first) = program_id ->
      Enrich.merge_one repr batch_details program_id (st, batch_enhanced)
      = Py.Ok (Enrich.add_enhanced
                 (Enrich.set_epg_data ((details ∪ first) :: rest) st),
               (batch_enhanced + 1)%Z)).
Proof.
  intros Hd He. split.
  - intros Hi Hne. unfold Enrich.merge_one.
    rewrite Hd, He. cbn [Enrich.update_first].
    rewrite (id_matches_raise repr _ _ Hi Hne). reflexivity.
  - intros Heq. unfold Enrich.merge_one.
    rewrite Hd, He. cbn [Enrich.update_first].
    rewrite (id_matches_same_text repr _ _ Heq). reflexivity.
Qed.

Lemma C10_non_numeric_identifier_raises_witness :
  Enrich.merge_one (fun _ => "") {[Enrich.KStr "abc" := ∅]} "abc"
    (Enrich.initial [{["id" := Py.VInt 7]}; {["id" := Py.VStr "abc"]}], 0%Z)
  = Py.Raise Py.ValueError.
Proof.
  refine (proj1 (C10_non_numeric_identifier_raises (fun _ => "")
                   {[Enrich.KStr "abc" := ∅]} "abc"
                   (Enrich.initial [{["id" := Py.VInt 7]}; {["id" := Py.VStr "abc"]}])
                   0 ∅ {["id" := Py.VInt 7]} [{["id" := Py.VStr "abc"]}] _ _) _ _).
  - reflexivity.
  - reflexivity.
  - reflexivity.
  - discriminate.
Defined.

(** C8. The identifiers are cut into [ceil(N / 20)] batches of at most 20
    which, put end to end, give the identifiers back; when the
    identifiers are pairwise distinct every one of them lies in exactly
    one batch. When every request is answered, the run issues exactly
    one request per batch, in this order. *)
Theorem C8_batches_partition (ids : list string) :
  length (Enrich.batches ids) = (length ids + 19) / 20
  /\ (length ids <= 20 * length (Enrich.batches ids) < length ids + 20)
  /\ concat (Enrich.batches ids) = ids
  /\ (forall b, b ∈ Enrich.batches ids -> 0 < length b <= 20)
  /\ (NoDup ids ->
      forall x, x ∈ ids ->
        exists i b, Enrich.batches ids !! i = Some b /\ x ∈ b
                    /\ forall j b', Enrich.batches ids !! j = Some b' -> x ∈ b' -> j = i)
  /\ (forall repr server data st,
        Enrich.program_ids repr data = ids ->
        (forall n b, server n b <> ∅) ->
        Enrich.enhance_loop repr server data = Py.Ok st ->
        Enrich.requests st = length (Enrich.batches ids)
        /\ Enrich.request_batches (Enrich.trace st) = Enrich.batches ids).
Proof.
  split; [apply batches_length|].
  split.
  { rewrite batches_length.
    pose proof (Nat.div_mod_eq (length ids + 19) 20) as E.
    pose proof (Nat.mod_upper_bound (length ids + 19) 20). lia. }
  split; [apply batches_concat|].
  split; [apply batches_nonempty|].
  split.
  - intros Hnd x Hx. rewrite <- (batches_concat ids) in Hx, Hnd.
    assert (Hex : exists i b, Enrich.batches ids !! i = Some b /\ x ∈ b).
    { clear Hnd. induction (Enrich.batches ids) as [|b bs IH]; simpl in Hx.
      - inversion Hx.
      - apply elem_of_app in Hx as [Hx|Hx].
        + exists 0, b. auto.
        + destruct (IH Hx) as (i & c & Hi & Hc). exists (S i), c. auto. }
    destruct Hex as (i & b & Hi & Hb). exists i, b. repeat split; try assumption.
    intros j b' Hj Hb'. eapply concat_NoDup_same_index; eassumption.
  - intros repr server data st <- Hs H. unfold Enrich.enhance_loop in H.
    apply (batch_loop_answered repr server) in H as [Hr Ht];
      [auto | assumption | simpl; lia].
Qed.

Lemma C8_batches_partition_witness :
  (exists i b, Enrich.batches ["101"; "102"; "103"] !! i = Some b /\ "102" ∈ b
     /\ forall j b', Enrich.batches ["101"; "102"; "103"] !! j = Some b' ->
                     "102" ∈ b' -> j = i)
  /\ (exists st,
        Enrich.enhance_loop (fun _ => "") Enrich.answering_server
          [{["id" := Py.VInt 101]}; {["id" := Py.VInt 102]}; {["id" := Py.VInt 103]}]
        = Py.Ok st
        /\ Enrich.requests st = 1
        /\ Enrich.request_batches (Enrich.trace st) = [["101"; "102"; "103"]]).
Proof.
  pose proof (C8_batches_partition ["101"; "102"; "103"])
    as (_ & _ & _ & _ & Hpart & Hrun).
  split.
  - apply Hpart; compute_done.
  - eexists. split; [vm_compute; reflexivity|].
    apply (Hrun (fun _ => "") Enrich.answering_server
             [{["id" := Py.VInt 101]}; {["id" := Py.VInt 102]}; {["id" := Py.VInt 103]}]).
    + reflexivity.
    + intros n b. apply map_non_empty_singleton.
    + vm_compute. reflexivity.
Defined.

(** ** More on text cleaning *)

Section TextMore.
Import Text.

Lemma append_cons x (a b : string) : String x a +:+ b = String x (a +:+ b).
Proof. reflexivity. Qed.

Lemma append_assoc_str (a b c : string) : (a +:+ b) +:+ c = a +:+ (b +:+ c).
Proof.
  induction a as [|x a IH]; [reflexivity|].
  rewrite !append_cons, IH. reflexivity.
Qed.

Lemma replace_cons old new x s :
  replace old new (String x s)
  = if Ascii.eqb x old then new +:+ replace old new s
    else String x (replace old new s).
Proof. reflexivity. Qed.

Lemma replace_append old new a b :
  replace old new (a +:+ b) = replace old new a +:+ replace old new b.
Proof.
  induction a as [|x a IH]; [reflexivity|].
  rewrite append_cons, !replace_cons, IH.
  destruct (Ascii.eqb x old); [|reflexivity].
  symmetry. apply append_assoc_str.
Qed.

Lemma escape_cons c s : escape (String c s) = escape_char c +:+ escape s.
Proof.
  unfold escape, escape_char. cbn [replace].
  destruct (Ascii.eqb_spec c "&") as [->|Hamp].
  - rewrite !replace_append. reflexivity.
  - cbn [replace]. destruct (Ascii.eqb_spec c "<") as [->|Hlt].
    + rewrite !replace_append. reflexivity.
    + cbn [replace]. destruct (Ascii.eqb_spec c ">") as [->|Hgt]; reflexivity.
Qed.

Lemma contains_lstrip c s : contains c (lstrip s) = true -> contains c s = true.
Proof.
  induction s as [|a s IH]; simpl; [discriminate|].
  destruct (is_space a); [|exact id].
  intros H. rewrite (IH H). apply orb_true_r.
Qed.

Lemma contains_rstrip c s : contains c (rstrip s) = true -> contains c s = true.
Proof.
  induction s as [|a s IH]; [discriminate|].
  cbn [rstrip]. destruct (rstrip s) as [|b r] eqn:E.
  - destruct (is_space a); simpl; [discriminate|].
    rewrite orb_false_r. intros ->. reflexivity.
  - cbn [contains]. intros H. apply orb_true_iff in H as [H|H].
    + rewrite H. reflexivity.
    + rewrite IH by exact H. apply orb_true_r.
Qed.

Lemma contains_strip c s : contains c s = false -> contains c (strip s) = false.
Proof.
  intros H. unfold strip. destruct (contains c (lstrip (rstrip s))) eqn:E; [|reflexivity].
  apply contains_lstrip, contains_rstrip in E. congruence.
Qed.

Lemma escape_no_gt text : contains ">" (escape text) = false.
Proof. unfold escape. apply contains_replace_self. reflexivity. Qed.

Lemma starts_with_space_lstrip s : starts_with_space (lstrip s) = false.
Proof.
  induction s as [|a s IH]; simpl; [reflexivity|].
  destruct (is_space a) eqn:E; [exact IH|]. simpl. exact E.
Qed.

Lemma ends_with_space_cons a s :
  s <> EmptyString -> ends_with_space (String a s) = ends_with_space s.
Proof. destruct s; [contradiction | reflexivity]. Qed.

Lemma ends_with_space_rstrip s : ends_with_space (rstrip s) = false.
Proof.
  induction s as [|a s IH]; [reflexivity|].
  cbn [rstrip]. destruct (rstrip s) as [|b r] eqn:E.
  - destruct (is_space a) eqn:Ea; [reflexivity|]. simpl. exact Ea.
  - rewrite ends_with_space_cons by discriminate. exact IH.
Qed.

Lemma ends_with_space_lstrip s :
  ends_with_space s = false -> ends_with_space (lstrip s) = false.
Proof.
  induction s as [|a s IH]; [reflexivity|]. intros H.
  cbn [lstrip]. destruct (is_space a) eqn:Ea; [|exact H].
  destruct s as [|b s]; [reflexivity|].
  apply IH. rewrite ends_with_space_cons in H by discriminate. exact H.
Qed.

Lemma count_append c a b : count c (a +:+ b) = count c a + count c b.
Proof.
  induction a as [|x a IH]; [reflexivity|].
  rewrite append_cons. cbn [count]. rewrite IH. lia.
Qed.

Lemma count_lstrip c s : is_space c = false -> count c (lstrip s) = count c s.
Proof.
  intros Hc. induction s as [|a s IH]; [reflexivity|].
  cbn [lstrip]. destruct (is_space a) eqn:Ea; [|reflexivity].
  cbn [count]. destruct (Ascii.eqb_spec a c) as [->|_]; [congruence|]. exact IH.
Qed.

Lemma count_rstrip c s : is_space c = false -> count c (rstrip s) = count c s.
Proof.
  intros Hc. induction s as [|a s IH]; [reflexivity|].
  cbn [rstrip]. destruct (rstrip s) as [|b r] eqn:E.
  - cbn [count] in *. rewrite <- IH.
    destruct (is_space a) eqn:Ea; [|reflexivity].
    destruct (Ascii.eqb_spec a c) as [->|_]; [congruence|]. reflexivity.
  - cbn [count] in *. rewrite <- IH. reflexivity.
Qed.

Lemma count_strip c s : is_space c = false -> count c (strip s) = count c s.
Proof.
  intros Hc. unfold strip. rewrite count_lstrip, count_rstrip by exact Hc. reflexivity.
Qed.

(** Every entity ends with [';']: escaping adds one [';'] for each
    ['&'], ['<'] and ['>'] of the text. *)
Lemma count_escape s :
  count ";" (escape s) = count ";" s + count "&" s + count "<" s + count ">" s.
Proof.
  induction s as [|a s IH]; [reflexivity|].
  rewrite escape_cons, count_append, IH. unfold escape_char. cbn [count].
  destruct (Ascii.eqb_spec a "&") as [->|Ha]; [cbn; lia|].
  destruct (Ascii.eqb_spec a "<") as [->|Hl]; [cbn; lia|].
  destruct (Ascii.eqb_spec a ">") as [->|Hg]; [cbn; lia|].
  cbn [count]. lia.
Qed.

Lemma count_zero c s : count c s = 0 -> contains c s = false.
Proof.
  induction s as [|a s IH]; [reflexivity|]. cbn [count contains].
  destruct (Ascii.eqb a c); [discriminate|]. exact IH.
Qed.
End TextMore.

(** C9 as stated fails. A string without markup and without [&], [<],
    [>] is changed when it starts with whitespace; and text that has been
    sanitized already, whose only [&] begins an entity, is escaped once
    more, so sanitizing twice differs from sanitizing once. *)
Lemma C9_sanitized_text_is_changed :
  (Text.contains "&" " News" = false /\ Text.contains "<" " News" = false
   /\ Text.contains ">" " News" = false
   /\ Text._clean_text " News" = "News" /\ Text._clean_text " News" <> " News")
  /\ Text._clean_text "Tom & Jerry" = "Tom &amp; Jerry"
  /\ Text._clean_text "Tom &amp; Jerry" = "Tom &amp;amp; Jerry"
  /\ Text._clean_text (Text._clean_text "Tom & Jerry") <> Text._clean_text "Tom & Jerry".
Proof. repeat split; try reflexivity; discriminate. Qed.

(** C9, amended. [_clean_text] returns a string unchanged exactly when
    the string contains no [&], no [<] and no [>] at all, an [&] that
    begins an entity included, and neither starts nor ends with
    whitespace. *)
Theorem C9_clean_text_noop (s : string) :
  Text._clean_text s = s
  <-> (Text.contains "&" s = false
       /\ Text.contains "<" s = false
       /\ Text.contains ">" s = false
       /\ Text.starts_with_space s = false
       /\ Text.ends_with_space s = false).
Proof.
  split.
  - intros H.
    assert (Hc : Text.count ";" (Text._clean_text s) = Text.count ";" s)
      by (rewrite H; reflexivity).
    rewrite clean_text_escape, count_strip, count_escape in Hc by reflexivity.
    split; [apply count_zero; lia|]. split; [apply count_zero; lia|].
    split; [apply count_zero; lia|]. rewrite <- H, clean_text_escape.
    unfold Text.strip. split.
    + apply starts_with_space_lstrip.
    + apply ends_with_space_lstrip, ends_with_space_rstrip.
  - intros (Ha & Hl & Hg & Hs & He). rewrite clean_text_escape. unfold Text.escape.
    rewrite (replace_absent "&") by assumption.
    rewrite (replace_absent "<") by assumption.
    rewrite (replace_absent ">") by assumption.
    apply strip_id; assumption.
Qed.

Lemma C9_clean_text_noop_witness :
  Text._clean_text "Tagesschau 20 Uhr" = "Tagesschau 20 Uhr".
Proof. apply (proj2 (C9_clean_text_noop "Tagesschau 20 Uhr")). repeat split. Defined.

(** X1. The three substitutions of [_clean_text], applied one after the
    other, act as one pass that replaces every ['&'], ['<'] and ['>'] of
    the input by its entity and keeps every other character: the ['&']
    of an entity written by a later substitution is never escaped again. *)
Theorem X1_escape_is_single_pass (text : string) :
  Text.escape text = Text.escape_each text.
Proof.
  induction text as [|c s IH]; [reflexivity|].
  rewrite escape_cons, IH. reflexivity.
Qed.

(** X2. The text returned by [_clean_text] contains neither ['<'] nor
    ['>'], whatever the input. *)
Theorem X2_clean_text_has_no_angle_brackets (text : string) :
  Text.contains "<" (Text._clean_text text) = false
  /\ Text.contains ">" (Text._clean_text text) = false.
Proof.
  rewrite clean_text_escape. split; apply contains_strip.
  - apply escape_no_lt.
  - apply escape_no_gt.
Qed.

(** X3. The text returned by [_clean_text] neither starts nor ends with
    a whitespace character. *)
Theorem X3_clean_text_is_trimmed (text : string) :
  Text.starts_with_space (Text._clean_text text) = false
  /\ Text.ends_with_space (Text._clean_text text) = false.
Proof.
  rewrite clean_text_escape. unfold Text.strip. split.
  - apply starts_with_space_lstrip.
  - apply ends_with_space_lstrip, ends_with_space_rstrip.
Qed.

(** ** The progress bar *)

Lemma filled_bounds (current total length : Z) :
  (0 <= current <= total)%Z -> (0 < total)%Z -> (0 <= length)%Z ->
  (0 <= Progress.filled current total length <= length)%Z.
Proof.
  intros Hc Ht Hl. unfold Progress.filled.
  destruct (Z.gtb_spec total 0) as [_|]; [|lia]. split.
  - apply Z.div_pos; nia.
  - apply Z.div_le_upper_bound; nia.
Qed.

(** X4. For a progress value between 0 and a positive total, the bar has
    exactly [length] cells, of which the first
    [floor(length * current / total)] are full and the others shaded; it
    is all shaded at 0, all full at the total, and the number of full
    cells does not decrease when the progress value grows. *)
Theorem X4_progress_bar_width (current total length : Z) :
  (0 <= current <= total)%Z -> (0 < total)%Z -> (0 <= length)%Z ->
  List.length (Progress.bar current total length) = Z.to_nat length
  /\ Progress.bar current total length
     = (repeat Progress.Full (Z.to_nat (length * current / total))
        ++ repeat Progress.Shade (Z.to_nat length - Z.to_nat (length * current / total)))%list
  /\ Progress.bar 0 total length = repeat Progress.Shade (Z.to_nat length)
  /\ Progress.bar total total length = repeat Progress.Full (Z.to_nat length)
  /\ (forall current', (current <= current')%Z ->
        (Progress.filled current total length
         <= Progress.filled current' total length)%Z).
Proof.
  intros Hc Ht Hl.
  pose proof (filled_bounds current total length Hc Ht Hl) as Hf.
  assert (Hfe : Progress.filled current total length = (length * current / total)%Z).
  { unfold Progress.filled. destruct (Z.gtb_spec total 0); [reflexivity | lia]. }
  split; [|split; [|split; [|split]]].
  - unfold Progress.bar. rewrite length_app, !repeat_length. lia.
  - unfold Progress.bar. rewrite Hfe in *. do 2 f_equal. lia.
  - unfold Progress.bar, Progress.filled.
    destruct (Z.gtb_spec total 0); [|lia].
    rewrite Z.mul_0_r, Z.div_0_l by lia. simpl. f_equal. lia.
  - unfold Progress.bar, Progress.filled.
    destruct (Z.gtb_spec total 0); [|lia].
    rewrite Z.div_mul by lia. rewrite Z.sub_diag. simpl. apply app_nil_r.
  - intros current' Hle. unfold Progress.filled.
    destruct (Z.gtb_spec total 0); [|lia].
    apply Z.div_le_mono; nia.
Qed.

Lemma X4_progress_bar_width_witness :
  Progress.bar 3 28 25
  = ([Progress.Full; Progress.Full] ++ repeat Progress.Shade 23)%list.
Proof.
  exact (proj1 (proj2 (X4_progress_bar_width 3 28 25
                         ltac:(lia) ltac:(lia) ltac:(lia)))).
Defined.

(** ** More on the Detail Enricher *)

Section EnrichMore.
Import Py Enrich.
Variable repr : value -> string.
Variable server : nat -> list string -> gmap key (gmap string value).

Lemma keeps_fields_refl r : keeps_fields r r.
Proof. intros k H. exact H. Qed.

Lemma keeps_fields_trans r1 r2 r3 :
  keeps_fields r1 r2 -> keeps_fields r2 r3 -> keeps_fields r1 r3.
Proof. intros H1 H2 k H. apply H2, H1, H. Qed.

Lemma keeps_fields_union (details r : gmap string value) :
  keeps_fields r (details ∪ r).
Proof. intros k H. apply lookup_union_is_Some. right. exact H. Qed.

Lemma Forall2_keeps_refl data : Forall2 keeps_fields data data.
Proof. induction data; constructor; [apply keeps_fields_refl | assumption]. Qed.

Lemma Forall2_keeps_trans d1 d2 d3 :
  Forall2 keeps_fields d1 d2 -> Forall2 keeps_fields d2 d3 ->
  Forall2 keeps_fields d1 d3.
Proof.
  intros H. revert d3. induction H as [|a b l1 l2 Hab _ IH]; intros d3 H3.
  - inversion H3. constructor.
  - inversion H3 as [|b' c l2' l3 Hbc Hrest]; subst. constructor.
    + eapply keeps_fields_trans; eassumption.
    + apply IH. assumption.
Qed.

Lemma update_first_keeps program_id details data data' :
  update_first repr program_id details data = Ok (Some data') ->
  Forall2 keeps_fields data data'.
Proof.
  revert data'. induction data as [|program rest IH]; intros data'; cbn [update_first].
  - discriminate.
  - destruct (id_matches repr (get "id" program) program_id) as [[|]|]; cbn [bind].
    + intros H. injection H as <-. constructor.
      * apply keeps_fields_union.
      * apply Forall2_keeps_refl.
    + destruct (update_first repr program_id details rest) as [[r|]|];
        cbn [bind option_map]; intros H; try discriminate H.
      injection H as <-. constructor; [apply keeps_fields_refl | auto].
    + discriminate.
Qed.

(** What one identifier does to the records and the counters. *)
Lemma merge_one_effect batch_details program_id st be st' be' :
  merge_one repr batch_details program_id (st, be) = Ok (st', be') ->
  Forall2 keeps_fields (epg_data st) (epg_data st')
  /\ (failed_count st'
      = failed_count st
        + Z.of_nat (length (absent_ids batch_details [program_id])))%Z
  /\ (enhanced_count st' = enhanced_count st + (be' - be))%Z
  /\ (0 <= be' - be <= Z.of_nat (length (present_ids batch_details [program_id])))%Z.
Proof.
  unfold merge_one, absent_ids, present_ids. rewrite !filter_cons, !filter_nil.
  destruct (batch_details !! KStr program_id) as [details|] eqn:Hd.
  - rewrite decide_False by discriminate.
    rewrite decide_True by eauto.
    destruct (update_first repr program_id details (epg_data st)) as [[data|]|] eqn:U;
      cbn [bind]; intros H; [| |discriminate H]; injection H as <- <-; simpl.
    + split; [eapply update_first_keeps, U|]. repeat split; lia.
    + split; [apply Forall2_keeps_refl|]. repeat split; lia.
  - rewrite decide_True by reflexivity.
    rewrite decide_False by (intros [? ?]; discriminate).
    intros H. injection H as <- <-. simpl.
    split; [apply Forall2_keeps_refl|]. repeat split; lia.
Qed.

Lemma merge_batch_effect batch_details batch : forall st be st' be',
  merge_batch repr batch_details batch (st, be) = Ok (st', be') ->
  Forall2 keeps_fields (epg_data st) (epg_data st')
  /\ (failed_count st'
      = failed_count st + Z.of_nat (length (absent_ids batch_details batch)))%Z
  /\ (enhanced_count st' = enhanced_count st + (be' - be))%Z
  /\ (0 <= be' - be <= Z.of_nat (length (present_ids batch_details batch)))%Z.
Proof.
  induction batch as [|program_id rest IH]; intros st be st' be'; cbn [merge_batch].
  - intros H. injection H as <- <-. simpl.
    split; [apply Forall2_keeps_refl|]. repeat split; lia.
  - destruct (merge_one repr batch_details program_id (st, be))
      as [[st1 be1]|] eqn:E; cbn [bind]; [|discriminate].
    intros H. apply IH in H as (Hk & Hf & He & Hb).
    apply merge_one_effect in E as (Hk1 & Hf1 & He1 & Hb1).
    unfold absent_ids, present_ids in *.
    rewrite !filter_cons, !filter_nil in Hf1, Hb1. rewrite !filter_cons.
    split; [eapply Forall2_keeps_trans; eassumption|].
    destruct (decide (batch_details !! KStr program_id = None));
      destruct (decide (is_Some (batch_details !! KStr program_id)));
      simpl in *; repeat split; lia.
Qed.

Lemma merge_batch_numeric batch_details batch : forall acc,
  Forall (fun program_id => is_Some (int_of_str program_id)) batch ->
  exists acc', merge_batch repr batch_details batch acc = Ok acc'.
Proof.
  induction batch as [|program_id rest IH]; intros [st be] Hn; cbn [merge_batch].
  - eauto.
  - inversion Hn as [|? ? [n Hi] Hrest]; subst.
    assert (Hone : exists acc1, merge_one repr batch_details program_id (st, be) = Ok acc1).
    { unfold merge_one. destruct (batch_details !! KStr program_id) as [details|]; [|eauto].
      destruct (update_first_numeric repr program_id n details (epg_data st) Hi) as [r ->].
      cbn [bind]. destruct r; eauto. }
    destruct Hone as [acc1 ->]. cbn [bind]. apply IH. assumption.
Qed.

(** What the retry loop leaves behind, whatever the answers. *)
Lemma fetch_effect batch st :
  let '(_, _, st1) := fetch_with_retry server batch st in
  epg_data st1 = epg_data st
  /\ enhanced_count st1 = enhanced_count st
  /\ failed_count st1 = failed_count st
  /\ requests st < requests st1 <= requests st + 3
  /\ request_batches (trace st1)
     = (request_batches (trace st) ++ repeat batch (requests st1 - requests st))%list.
Proof.
  destruct (is_empty (server (requests st) batch)) eqn:E0.
  - apply is_empty_true in E0.
    destruct (is_empty (server (S (requests st)) batch)) eqn:E1.
    + apply is_empty_true in E1.
      destruct (is_empty (server (S (S (requests st))) batch)) eqn:E2.
      * apply is_empty_true in E2. rewrite (fetch_exhausted server batch st E0 E1 E2).
        simpl. rewrite !request_batches_app. simpl.
        replace (S (S (S (requests st))) - requests st) with 3 by lia.
        rewrite <- !app_assoc. repeat split; lia.
      * apply is_empty_false in E2. rewrite (fetch_third server batch st E0 E1 E2).
        simpl. rewrite !request_batches_app. simpl.
        replace (S (S (S (requests st))) - requests st) with 3 by lia.
        rewrite <- !app_assoc. repeat split; lia.
    + apply is_empty_false in E1. rewrite (fetch_second server batch st E0 E1).
      simpl. rewrite !request_batches_app. simpl.
      replace (S (S (requests st)) - requests st) with 2 by lia.
      rewrite <- !app_assoc. repeat split; lia.
  - apply is_empty_false in E0. rewrite (fetch_first server batch st E0).
    simpl. rewrite !request_batches_app. simpl.
    replace (S (requests st) - requests st) with 1 by lia.
    repeat split; lia.
Qed.

Lemma process_batch_effect batch st st' :
  process_batch repr server batch st = Ok st' ->
  Forall2 keeps_fields (epg_data st) (epg_data st')
  /\ requests st < requests st' <= requests st + 3
  /\ request_batches (trace st')
     = (request_batches (trace st) ++ repeat batch (requests st' - requests st))%list
  /\ exists t, trace st'
       = (t ++ [SleepTenths (if (enhanced_count st' =? enhanced_count st)%Z
                             then 10 else 5)])%list.
Proof.
  unfold process_batch. pose proof (fetch_effect batch st) as F.
  destruct (fetch_with_retry server batch st) as [[rc bd] st1].
  destruct F as (Hd & He & Hf & Hr & Ht).
  destruct (merge_batch repr bd batch (st1, 0%Z)) as [[st2 be]|] eqn:M;
    cbn [bind]; [|discriminate].
  pose proof (merge_batch_frame repr _ _ _ _ _ _ M) as (_ & Hr2 & Ht2).
  apply merge_batch_effect in M as (Hk & _ & He2 & Hb).
  rewrite Hd in Hk.
  intros H.
  destruct (Z.eqb_spec be 0) as [->|Hne]; injection H as <-; simpl;
    rewrite Hr2, Ht2, request_batches_app; simpl; rewrite app_nil_r.
  - repeat split; try assumption; try lia.
    exists (trace st1). rewrite He2, He, Z.sub_0_r, Z.add_0_r, Z.eqb_refl. reflexivity.
  - repeat split; try assumption; try lia.
    exists (trace st1).
    destruct (Z.eqb_spec (enhanced_count st2) (enhanced_count st)); [lia | reflexivity].
Qed.

Lemma batch_loop_effect bs : forall st st',
  batch_loop repr server bs st = Ok st' ->
  Forall2 keeps_fields (epg_data st) (epg_data st')
  /\ requests st <= requests st' <= requests st + 3 * length bs
  /\ exists new, request_batches (trace st') = (request_batches (trace st) ++ new)%list
                 /\ length new = requests st' - requests st
                 /\ Forall (fun b => b ∈ bs) new.
Proof.
  induction bs as [|batch rest IH]; intros st st'; cbn [batch_loop].
  - intros H. injection H as <-. split; [apply Forall2_keeps_refl|].
    split; [simpl; lia|]. exists []. rewrite app_nil_r. repeat split; [simpl; lia | constructor].
  - destruct (process_batch repr server batch st) as [st1|] eqn:P; cbn [bind]; [|discriminate].
    apply process_batch_effect in P as (Hk & Hr & Ht & _).
    assert (Hnew : Forall (fun b => b ∈ batch :: rest)
                          (repeat batch (requests st1 - requests st))).
    { apply Forall_forall. intros b Hb. apply list_elem_of_In, repeat_spec in Hb as ->.
      apply elem_of_cons. left. reflexivity. }
    destruct (connection_errors st1 >? 5)%Z.
    + intros H. injection H as <-. split; [assumption|]. split; [simpl; lia|].
      eexists. split; [exact Ht|]. split; [rewrite repeat_length; reflexivity | assumption].
    + intros H. apply IH in H as (Hk2 & Hr2 & new & Ht2 & Hlen & Hin).
      split; [eapply Forall2_keeps_trans; eassumption|]. split; [simpl; lia|].
      exists (repeat batch (requests st1 - requests st) ++ new)%list.
      rewrite Ht2, Ht, <- app_assoc. split; [reflexivity|]. split.
      * rewrite length_app, repeat_length. lia.
      * apply Forall_app. split; [assumption|].
        eapply Forall_impl; [exact Hin|]. intros b Hb. apply elem_of_cons. right. exact Hb.
Qed.

Lemma batch_loop_numeric bs : forall st,
  Forall (Forall (fun program_id => is_Some (int_of_str program_id))) bs ->
  exists st', batch_loop repr server bs st = Ok st'.
Proof.
  induction bs as [|batch rest IH]; intros st Hn; cbn [batch_loop]; [eauto|].
  inversion Hn as [|? ? Hb Hrest]; subst.
  assert (Hp : exists st1, process_batch repr server batch st = Ok st1).
  { unfold process_batch. destruct (fetch_with_retry server batch st) as [[rc bd] st1].
    destruct (merge_batch_numeric bd batch (st1, 0%Z) Hb) as [[st2 be] ->].
    cbn [bind]. destruct (be =? 0)%Z; eauto. }
  destruct Hp as [st1 ->]. cbn [bind].
  destruct (connection_errors st1 >? 5)%Z; [eauto | apply IH; assumption].
Qed.

(** The retry loop only appends requests and backoff sleeps. *)
Lemma fetch_trace batch st :
  let '(_, _, st1) := fetch_with_retry server batch st in
  exists mid, trace st1 = (trace st ++ mid)%list /\ pacing_sleeps mid = [].
Proof.
  destruct (is_empty (server (requests st) batch)) eqn:E0.
  - apply is_empty_true in E0.
    destruct (is_empty (server (S (requests st)) batch)) eqn:E1.
    + apply is_empty_true in E1.
      destruct (is_empty (server (S (S (requests st))) batch)) eqn:E2.
      * apply is_empty_true in E2. rewrite (fetch_exhausted server batch st E0 E1 E2).
        exists [Request batch; SleepSeconds 2; Request batch; SleepSeconds 4; Request batch].
        simpl. rewrite <- !app_assoc. split; reflexivity.
      * apply is_empty_false in E2. rewrite (fetch_third server batch st E0 E1 E2).
        exists [Request batch; SleepSeconds 2; Request batch; SleepSeconds 4; Request batch].
        simpl. rewrite <- !app_assoc. split; reflexivity.
    + apply is_empty_false in E1. rewrite (fetch_second server batch st E0 E1).
      exists [Request batch; SleepSeconds 2; Request batch].
      simpl. rewrite <- !app_assoc. split; reflexivity.
  - apply is_empty_false in E0. rewrite (fetch_first server batch st E0).
    exists [Request batch]. simpl. split; reflexivity.
Qed.

Lemma process_batch_pacing batch st st' :
  process_batch repr server batch st = Ok st' ->
  exists mid,
    trace st' = (trace st ++ mid ++
                   [SleepTenths (if (enhanced_count st' =? enhanced_count st)%Z
                                 then 10 else 5)])%list
    /\ pacing_sleeps mid = [].
Proof.
  unfold process_batch. pose proof (fetch_effect batch st) as F.
  pose proof (fetch_trace batch st) as T.
  destruct (fetch_with_retry server batch st) as [[rc bd] st1].
  destruct F as (_ & He & _). destruct T as (mid & Ht & Hm).
  destruct (merge_batch repr bd batch (st1, 0%Z)) as [[st2 be]|] eqn:M;
    cbn [bind]; [|discriminate].
  pose proof (merge_batch_frame repr _ _ _ _ _ _ M) as (_ & _ & Ht2).
  apply merge_batch_effect in M as (_ & _ & He2 & Hb).
  intros H. exists mid. split; [|exact Hm].
  destruct (Z.eqb_spec be 0) as [->|Hne]; injection H as <-; simpl;
    rewrite Ht2, Ht, He2, He, <- app_assoc.
  - rewrite Z.sub_0_r, Z.add_0_r, Z.eqb_refl. reflexivity.
  - destruct (Z.eqb_spec (enhanced_count st + (be - 0)) (enhanced_count st)); [lia|].
    reflexivity.
Qed.

Lemma program_ids_integer data :
  Forall (fun p => match get "id" p with
                   | VNone => True
                   | VInt n => ndigits n <= int_max_str_digits
                   | _ => False
                   end) data ->
  Forall (fun program_id => is_Some (int_of_str program_id)) (program_ids repr data).
Proof.
  induction 1 as [|p rest Hp _ IH]; cbn [program_ids]; [constructor|].
  destruct (get "id" p) as [|n| | |] eqn:G; try contradiction.
  - exact IH.
  - destruct (truthy (VInt n)); [|exact IH]. constructor; [|exact IH].
    simpl. rewrite int_of_str_str_of_int by exact Hp. eauto.
Qed.
End EnrichMore.

(** X6. When no record carries an identifier, in particular when the
    listing is empty, [enhance_epg_data] issues no request, changes
    nothing, and then raises [ZeroDivisionError] while printing its
    summary. *)
Theorem X6_enhance_without_identifiers_raises (repr : Py.value -> string)
    (server : nat -> list string -> gmap Enrich.key (gmap string Py.value))
    (data : list (gmap string Py.value)) :
  Enrich.program_ids repr data = [] ->
  Enrich.enhance_loop repr server data = Py.Ok (Enrich.initial data)
  /\ Enrich.enhance_epg_data repr server data = Py.Raise Py.ZeroDivisionError.
Proof.
  intros H. unfold Enrich.enhance_epg_data, Enrich.enhance_loop. rewrite H.
  split; reflexivity.
Qed.

Lemma X6_enhance_without_identifiers_raises_witness :
  Enrich.enhance_epg_data (fun _ => "") Enrich.answering_server
    [{["t" := Py.VStr "News"]}; {["id" := Py.VInt 0]}]
  = Py.Raise Py.ZeroDivisionError.
Proof.
  apply (X6_enhance_without_identifiers_raises (fun _ => "") Enrich.answering_server).
  reflexivity.
Defined.

(** X7. When every identifier is text that [int()] accepts, and there is
    at least one, [enhance_epg_data] returns normally, whichever objects
    with object entries the upstream source answers with; records whose
    ids are integers of at most 4300 digits (or absent) give such
    identifiers. *)
Theorem X7_enhance_returns_for_numeric_identifiers (repr : Py.value -> string)
    (server : nat -> list string -> gmap Enrich.key (gmap string Py.value))
    (data : list (gmap string Py.value)) :
  (Forall (fun program_id => is_Some (Py.int_of_str program_id))
          (Enrich.program_ids repr data) ->
   Enrich.program_ids repr data <> [] ->
   exists st, Enrich.enhance_epg_data repr server data = Py.Ok st)
  /\ (Forall (fun p => match Py.get "id" p with
                       | Py.VNone => True
                       | Py.VInt n => Py.ndigits n <= Py.int_max_str_digits
                       | _ => False
                       end) data ->
      Forall (fun program_id => is_Some (Py.int_of_str program_id))
             (Enrich.program_ids repr data)).
Proof.
  split; [|apply program_ids_integer].
  intros Hn Hne. unfold Enrich.enhance_epg_data, Enrich.enhance_loop.
  destruct (batch_loop_numeric repr server
              (Enrich.batches (Enrich.program_ids repr data)) (Enrich.initial data))
    as [st ->].
  - apply Forall_concat. rewrite batches_concat. exact Hn.
  - exists st. simpl. destruct (Enrich.program_ids repr data); [contradiction | reflexivity].
Qed.

Lemma X7_enhance_returns_for_numeric_identifiers_witness :
  exists st,
    Enrich.enhance_epg_data (fun _ => "") Enrich.answering_server
      [{["id" := Py.VInt 101]}; {["id" := Py.VStr " 7_0"]}] = Py.Ok st.
Proof.
  apply (proj1 (X7_enhance_returns_for_numeric_identifiers
                  (fun _ => "") Enrich.answering_server _)).
  - repeat constructor; simpl; eauto.
  - discriminate.
Defined.

(** X8. A run that returns has issued at most three requests per batch,
    that is at most [3 * ceil(N / 20)]; every request it made carries one
    of the batches, and no other request is made. *)
Theorem X8_requests_are_bounded (repr : Py.value -> string)
    (server : nat -> list string -> gmap Enrich.key (gmap string Py.value))
    (data : list (gmap string Py.value)) (st : Enrich.state) :
  Enrich.enhance_loop repr server data = Py.Ok st ->
  Enrich.requests st <= 3 * ((length (Enrich.program_ids repr data) + 19) / 20)
  /\ length (Enrich.request_batches (Enrich.trace st)) = Enrich.requests st
  /\ Forall (fun b => b ∈ Enrich.batches (Enrich.program_ids repr data))
            (Enrich.request_batches (Enrich.trace st)).
Proof.
  unfold Enrich.enhance_loop. intros H.
  apply batch_loop_effect in H as (_ & Hr & new & Ht & Hlen & Hin).
  simpl in Hr, Ht, Hlen. rewrite batches_length in Hr. rewrite Ht.
  split; [lia|]. split; [lia | exact Hin].
Qed.

Lemma X8_requests_are_bounded_witness :
  let data : list (gmap string Py.value) := [{["id" := Py.VInt 101]}] in
  let st := Enrich.after_exhausted ["101"] (Enrich.initial data) in
  Enrich.requests st <= 3 * ((length (Enrich.program_ids (fun _ => "") data) + 19) / 20)
  /\ length (Enrich.request_batches (Enrich.trace st)) = Enrich.requests st
  /\ Forall (fun b => b ∈ Enrich.batches (Enrich.program_ids (fun _ => "") data))
            (Enrich.request_batches (Enrich.trace st)).
Proof.
  intros data st.
  apply (X8_requests_are_bounded (fun _ => "") Enrich.dead_server data st).
  vm_compute. reflexivity.
Defined.

(** X9. Enrichment never removes or reorders records, and never removes
    a field from a record: after a run that returns, the records
    correspond one to one, in order, to the records before it, and each
    still has every field it had. *)
Theorem X9_enrichment_keeps_records (repr : Py.value -> string)
    (server : nat -> list string -> gmap Enrich.key (gmap string Py.value))
    (data : list (gmap string Py.value)) (st : Enrich.state) :
  Enrich.enhance_loop repr server data = Py.Ok st ->
  length (Enrich.epg_data st) = length data
  /\ Forall2 Enrich.keeps_fields data (Enrich.epg_data st).
Proof.
  unfold Enrich.enhance_loop. intros H.
  apply batch_loop_effect in H as (Hk & _). simpl in Hk.
  split; [symmetry; eapply Forall2_length, Hk | exact Hk].
Qed.

Lemma X9_enrichment_keeps_records_witness :
  exists st,
    Enrich.enhance_loop (fun _ => "") Enrich.answering_server
      [{["id" := Py.VInt 101]}; {["id" := Py.VInt 102]}] = Py.Ok st
    /\ length (Enrich.epg_data st) = 2
    /\ Forall2 Enrich.keeps_fields
         [{["id" := Py.VInt 101]}; {["id" := Py.VInt 102]}] (Enrich.epg_data st).
Proof.
  eexists. split; [vm_compute; reflexivity|].
  apply (X9_enrichment_keeps_records (fun _ => "") Enrich.answering_server
           [{["id" := Py.VInt 101]}; {["id" := Py.VInt 102]}]).
  vm_compute. reflexivity.
Defined.

(** X10. Merging the details of a batch adds to [failed_count] exactly
    the number of identifiers of the batch that have no entry in the
    detail map. It adds to [enhanced_count] exactly what it adds to the
    counter of the batch, an amount between 0 and the number of
    identifiers of the batch that have an entry. *)
Theorem X10_merge_counts (repr : Py.value -> string)
    (batch_details : gmap Enrich.key (gmap string Py.value)) (batch : list string)
    (st st' : Enrich.state) (batch_enhanced batch_enhanced' : Z) :
  Enrich.merge_batch repr batch_details batch (st, batch_enhanced)
  = Py.Ok (st', batch_enhanced') ->
  (Enrich.failed_count st'
   = Enrich.failed_count st
     + Z.of_nat (length (Enrich.absent_ids batch_details batch)))%Z
  /\ (Enrich.enhanced_count st'
      = Enrich.enhanced_count st + (batch_enhanced' - batch_enhanced))%Z
  /\ (0 <= batch_enhanced' - batch_enhanced
      <= Z.of_nat (length (Enrich.present_ids batch_details batch)))%Z.
Proof. intros H. apply merge_batch_effect in H as (_ & H). exact H. Qed.

Lemma X10_merge_counts_witness :
  let st := Enrich.initial [{["id" := Py.VInt 101]}; {["id" := Py.VInt 102]}] in
  exists st',
    Enrich.merge_batch (fun _ => "") (Enrich.answering_server 0 []) ["101"; "102"] (st, 0%Z)
    = Py.Ok (st', 1%Z)
    /\ Enrich.failed_count st' = 1%Z /\ Enrich.enhanced_count st' = 1%Z.
Proof.
  intros st. eexists. split; [vm_compute; reflexivity|].
  match goal with
  | |- Enrich.failed_count ?s = _ /\ _ =>
      destruct (X10_merge_counts (fun _ => "") (Enrich.answering_server 0 [])
                  ["101"; "102"] st s 0 1 ltac:(vm_compute; reflexivity))
        as (Hf & He & _)
  end.
  split; [exact Hf | exact He].
Defined.

(** X11. A processed batch makes exactly one pacing sleep, as the last
    thing it does, after its requests and backoff sleeps: one second
    when the batch left [enhanced_count] as it was, half a second when it
    raised it. *)
Theorem X11_adaptive_pacing (repr : Py.value -> string)
    (server : nat -> list string -> gmap Enrich.key (gmap string Py.value))
    (batch : list string) (st st' : Enrich.state) :
  Enrich.process_batch repr server batch st = Py.Ok st' ->
  exists mid,
    Enrich.trace st'
    = (Enrich.trace st ++ mid ++
         [Enrich.SleepTenths
            (if (Enrich.enhanced_count st' =? Enrich.enhanced_count st)%Z
             then 10 else 5)])%list
    /\ Enrich.pacing_sleeps mid = []
    /\ Enrich.pacing_sleeps (Enrich.trace st')
       = (Enrich.pacing_sleeps (Enrich.trace st) ++
            [if (Enrich.enhanced_count st' =? Enrich.enhanced_count st)%Z
             then 10%Z else 5%Z])%list.
Proof.
  intros H. apply process_batch_pacing in H as (mid & Ht & Hm).
  exists mid. split; [exact Ht|]. split; [exact Hm|].
  rewrite Ht. unfold Enrich.pacing_sleeps in *.
  rewrite !omap_app, Hm. reflexivity.
Qed.

Lemma X11_adaptive_pacing_witness :
  exists mid,
    Enrich.trace (Enrich.after_exhausted ["101"] (Enrich.initial []))
    = ([] ++ mid ++ [Enrich.SleepTenths 10])%list
    /\ Enrich.pacing_sleeps mid = [].
Proof.
  destruct (X11_adaptive_pacing (fun _ => "") Enrich.dead_server ["101"]
              (Enrich.initial []) (Enrich.after_exhausted ["101"] (Enrich.initial []))
              ltac:(vm_compute; reflexivity)) as (mid & Ht & Hm & _).
  exists mid. split; [exact Ht | exact Hm].
Defined.

(** ** More on the Guide Document Builder *)

Section XmltvMore.
Import Py Xmltv.
Variable repr : value -> string.
Variable strftime_local : Z -> result string.
Variable language : string.

Lemma cleaned_child_tags tag v l :
  cleaned_child language tag v = Ok l -> map tag_of l = tag_if v tag.
Proof.
  unfold cleaned_child, tag_if. destruct (truthy v).
  - destruct (clean_text v); cbn [bind]; [|discriminate].
    intros H. injection H as <-. reflexivity.
  - intros H. injection H as <-. reflexivity.
Qed.

Lemma category_children_tags genres : forall l,
  category_children language genres = Ok l ->
  map tag_of l = repeat "category" (length l).
Proof.
  induction genres as [|genre rest IH]; intros l; cbn [category_children].
  - intros H. injection H as <-. reflexivity.
  - destruct (truthy genre); [|apply IH].
    destruct (clean_text genre); cbn [bind]; [|discriminate].
    destruct (category_children language rest) as [r|]; cbn [bind]; [|discriminate].
    intros H. injection H as <-. simpl. f_equal. apply IH. reflexivity.
Qed.

Lemma credits_child_tags credits l :
  credits_child credits = Ok l -> map tag_of l = tag_if credits "credits".
Proof.
  unfold credits_child, tag_if. destruct (truthy credits).
  - destruct credits as [| | | |d]; try discriminate.
    repeat match goal with
           | |- context [Py.bind ?r _] => destruct r; cbn [bind]; [|discriminate]
           end.
    intros H. injection H as <-. reflexivity.
  - intros H. injection H as <-. reflexivity.
Qed.

Lemma episode_child_tags series_num episode_num l :
  episode_child series_num episode_num = Ok l ->
  map tag_of l
  = if truthy series_num || truthy episode_num then ["episode-num"] else [].
Proof.
  unfold episode_child. destruct (truthy series_num || truthy episode_num).
  - destruct (episode_text series_num episode_num); cbn [bind]; [|discriminate].
    intros H. injection H as <-. reflexivity.
  - intros H. injection H as <-. reflexivity.
Qed.

Lemma build_programmes_raise data : forall p e,
  p ∈ data ->
  build_programme repr strftime_local language p = Raise e ->
  exists e', build_programmes repr strftime_local language data = Raise e'.
Proof.
  induction data as [|q rest IH]; intros p e Hin Hp.
  - inversion Hin.
  - cbn [build_programmes]. apply elem_of_cons in Hin as [<-|Hin].
    + rewrite Hp. cbn [bind]. eauto.
    + destruct (build_programme repr strftime_local language q); cbn [bind]; [|eauto].
      destruct (IH p e Hin Hp) as [e' ->]. cbn [bind]. eauto.
Qed.

Lemma build_programmes_length data : forall ps,
  build_programmes repr strftime_local language data = Ok ps ->
  length ps = length (filter required_present data).
Proof.
  intros ps H. apply build_programmes_channels in H as [_ H].
  apply (f_equal (@length _)) in H. rewrite !length_map in H. exact H.
Qed.
End XmltvMore.

(** X12. A record that has a channel identifier, integer start and end,
    and a title, and none of the optional fields, gives one [programme]
    element with the start, stop and channel attributes and the cleaned
    title as its only child. *)
Theorem X12_minimal_record (repr : Py.value -> string)
    (strftime_local : Z -> Py.result string) (language : string)
    (program : gmap string Py.value) (cid : Py.value) (s e : Z) (t a b : string) :
  program !! "cid" = Some cid -> Py.truthy cid = true ->
  program !! "s" = Some (Py.VInt s) -> s <> 0%Z ->
  program !! "e" = Some (Py.VInt e) -> e <> 0%Z ->
  program !! "t" = Some (Py.VStr t) -> t <> "" ->
  strftime_local s = Py.Ok a -> strftime_local e = Py.Ok b ->
  (forall k, k ∈ ["et"; "d"; "i_t"; "year"; "country"; "g"; "cr"; "s_no"; "e_no"; "yp_r"] ->
             program !! k = None) ->
  Xmltv.build_programme repr strftime_local language program
  = Py.Ok (Some (Xmltv.Element "programme"
                   [("start", Py.VStr a); ("stop", Py.VStr b); ("channel", cid)]
                   None
                   [Xmltv.Element "title" [("lang", Py.VStr language)]
                      (Some (Py.VStr (Text._clean_text t))) []])).
Proof.
  intros Hcid Hc Hs Hs0 He He0 Ht Ht0 Ha Hb Hnone.
  assert (Hin : forall k, bool_decide
                  (k ∈ ["et"; "d"; "i_t"; "year"; "country"; "g"; "cr";
                        "s_no"; "e_no"; "yp_r"]) = true -> program !! k = None).
  { intros k Hk. apply Hnone. apply bool_decide_eq_true in Hk. exact Hk. }
  unfold Xmltv.build_programme, Xmltv.required_present, Py.get_default, Py.get.
  rewrite (Hin "et"), (Hin "d"), (Hin "i_t"), (Hin "year"), (Hin "country"),
    (Hin "g"), (Hin "cr"), (Hin "s_no"), (Hin "e_no"), (Hin "yp_r") by reflexivity.
  rewrite Hcid, Hs, He, Ht. cbn [default forallb]. unfold id.
  assert (Hts : Py.truthy (Py.VStr t) = true).
  { simpl. destruct (String.eqb_spec t ""); [contradiction | reflexivity]. }
  assert (Hss : Py.truthy (Py.VInt s) = true).
  { simpl. destruct (Z.eqb_spec s 0); [contradiction | reflexivity]. }
  assert (Hes : Py.truthy (Py.VInt e) = true).
  { simpl. destruct (Z.eqb_spec e 0); [contradiction | reflexivity]. }
  rewrite Hc, Hss, Hes, Hts. cbn [andb negb Xmltv.format_time].
  rewrite Ha, Hb. cbn [Py.bind]. unfold Xmltv.clean_text. rewrite Hts.
  reflexivity.
Qed.

Lemma X12_minimal_record_witness :
  Xmltv.build_programme (fun _ => "") (fun _ => Py.Ok "20231114231320 +0200") "de"
    (<["cid" := Py.VStr "101"]> (<["s" := Py.VInt 1700000000]>
       (<["e" := Py.VInt 1700001800]> (<["t" := Py.VStr "News"]> ∅))))
  = Py.Ok (Some (Xmltv.Element "programme"
                   [("start", Py.VStr "20231114231320 +0200");
                    ("stop", Py.VStr "20231114231320 +0200");
                    ("channel", Py.VStr "101")]
                   None
                   [Xmltv.Element "title" [("lang", Py.VStr "de")]
                      (Some (Py.VStr (Text._clean_text "News"))) []])).
Proof.
  apply (X12_minimal_record (fun _ => "") (fun _ => Py.Ok "20231114231320 +0200") "de"
           _ (Py.VStr "101") 1700000000 1700001800 "News");
    try reflexivity; try discriminate.
  intros k Hk.
  repeat (apply elem_of_cons in Hk as [->|Hk]; [reflexivity|]).
  inversion Hk.
Defined.

(** X13. The children of a [programme] element come in a fixed order:
    the title, then, each only when its field is present and non-empty,
    sub-title, desc, icon, date, country, the categories, credits,
    episode-num and rating. *)
Theorem X13_programme_children_order (repr : Py.value -> string)
    (strftime_local : Z -> Py.result string) (language : string)
    (program : gmap string Py.value) (e : Xmltv.element) :
  Xmltv.build_programme repr strftime_local language program = Py.Ok (Some e) ->
  exists n,
    map Xmltv.tag_of (Xmltv.children_of e)
    = ("title"
       :: Xmltv.tag_if (Py.get "et" program) "sub-title"
       ++ Xmltv.tag_if (Py.get "d" program) "desc"
       ++ Xmltv.tag_if (Py.get "i_t" program) "icon"
       ++ Xmltv.tag_if (Py.get "year" program) "date"
       ++ Xmltv.tag_if (Py.get "country" program) "country"
       ++ repeat "category" n
       ++ Xmltv.tag_if (Py.get_default "cr" (Py.VDict []) program) "credits"
       ++ (if Py.truthy (Py.get "s_no" program) || Py.truthy (Py.get "e_no" program)
           then ["episode-num"] else [])
       ++ Xmltv.tag_if (Py.get "yp_r" program) "rating")%list.
Proof.
  unfold Xmltv.build_programme.
  destruct (Xmltv.required_present program); cbn [negb]; [|discriminate].
  destruct (Xmltv.format_time strftime_local _); cbn [Py.bind]; [|discriminate].
  destruct (Xmltv.format_time strftime_local _); cbn [Py.bind]; [|discriminate].
  destruct (Xmltv.clean_text _); cbn [Py.bind]; [|discriminate].
  destruct (Xmltv.cleaned_child language "sub-title" _) as [sub|] eqn:Esub;
    cbn [Py.bind]; [|discriminate].
  destruct (Xmltv.cleaned_child language "desc" _) as [desc|] eqn:Edesc;
    cbn [Py.bind]; [|discriminate].
  destruct (Py.iter _) as [genres|]; cbn [Py.bind]; [|discriminate].
  destruct (Xmltv.category_children language genres) as [cats|] eqn:Ecat;
    cbn [Py.bind]; [|discriminate].
  destruct (Xmltv.credits_child _) as [cr|] eqn:Ecr; cbn [Py.bind]; [|discriminate].
  destruct (Xmltv.episode_child _ _) as [ep|] eqn:Eep; cbn [Py.bind]; [|discriminate].
  intros H. injection H as <-. exists (length cats).
  cbn [Xmltv.children_of map]. rewrite !map_app.
  rewrite (cleaned_child_tags _ _ _ _ Esub), (cleaned_child_tags _ _ _ _ Edesc).
  rewrite (category_children_tags _ _ _ Ecat), (credits_child_tags _ _ Ecr).
  rewrite (episode_child_tags _ _ _ Eep).
  unfold Xmltv.icon_child, Xmltv.date_child, Xmltv.country_child, Xmltv.rating_child,
    Xmltv.tag_if.
  destruct (Py.truthy (Py.get "i_t" program)), (Py.truthy (Py.get "year" program)),
    (Py.truthy (Py.get "country" program)), (Py.truthy (Py.get "yp_r" program));
    reflexivity.
Qed.

Lemma X13_programme_children_order_witness :
  let program : gmap string Py.value :=
    <["cid" := Py.VStr "101"]> (<["s" := Py.VInt 1700000000]>
      (<["e" := Py.VInt 1700001800]> (<["t" := Py.VStr "News"]>
         (<["d" := Py.VStr "Das Wetter"]>
            (<["g" := Py.VList [Py.VStr "Info"; Py.VStr ""]]>
               (<["e_no" := Py.VInt 4]> ∅)))))) in
  exists e,
    Xmltv.build_programme (fun _ => "") (fun _ => Py.Ok "20231114231320 +0200") "de"
      program = Py.Ok (Some e)
    /\ exists n,
         map Xmltv.tag_of (Xmltv.children_of e)
         = ("title" :: [] ++ ["desc"] ++ [] ++ [] ++ [] ++ repeat "category" n
            ++ [] ++ ["episode-num"] ++ [])%list.
Proof.
  intros program. eexists. split; [vm_compute; reflexivity|].
  match goal with
  | |- exists n, map Xmltv.tag_of (Xmltv.children_of ?e) = _ =>
      exact (X13_programme_children_order (fun _ => "")
               (fun _ => Py.Ok "20231114231320 +0200") "de" program e
               ltac:(vm_compute; reflexivity))
  end.
Defined.

(** X14. A document that is built has the channel elements first, one per
    channel in the order of the channel dictionary, each with the
    channel identifier as its [id], followed by one [programme] element
    per record that has its four required fields. *)
Theorem X14_document_layout (repr : Py.value -> string)
    (strftime_local : Z -> Py.result string) (language : string)
    (channels : list (string * Xmltv.channel))
    (data : list (gmap string Py.value)) (tv : Xmltv.element) :
  Xmltv.generate_xmltv repr strftime_local language channels data = Py.Ok tv ->
  Xmltv.tag_of tv = "tv"
  /\ map (fun e => (Xmltv.tag_of e, Xmltv.attrib_of e))
         (take (length channels) (Xmltv.children_of tv))
     = map (fun c => ("channel", [("id", Py.VStr (fst c))])) channels
  /\ Forall (fun e => Xmltv.tag_of e = "programme")
            (drop (length channels) (Xmltv.children_of tv))
  /\ length (Xmltv.children_of tv)
     = length channels + length (filter Xmltv.required_present data).
Proof.
  unfold Xmltv.generate_xmltv.
  destruct (Xmltv.build_programmes repr strftime_local language data)
    as [ps|] eqn:E; cbn [Py.bind]; [|discriminate].
  intros H. injection H as <-. cbn [Xmltv.tag_of Xmltv.children_of].
  pose proof (build_programmes_length _ _ _ _ _ E) as Hlen.
  apply build_programmes_channels in E as [Ht _].
  split; [reflexivity|].
  rewrite take_app_length', drop_app_length' by (rewrite length_map; reflexivity).
  split; [|split].
  - rewrite map_map. apply map_ext. intros [cid info]. reflexivity.
  - exact Ht.
  - rewrite length_app, length_map, Hlen. reflexivity.
Qed.

Lemma X14_document_layout_witness :
  let channels := [("101", {| Xmltv.title := "ChannelA"; Xmltv.logo := "" |})] in
  let data : list (gmap string Py.value) :=
    [<["cid" := Py.VStr "101"]> (<["s" := Py.VInt 1700000000]>
       (<["e" := Py.VInt 1700001800]> (<["t" := Py.VStr "News"]> ∅)))] in
  exists tv,
    Xmltv.generate_xmltv (fun _ => "") (fun _ => Py.Ok "20231114231320 +0200") "de"
      channels data = Py.Ok tv
    /\ length (Xmltv.children_of tv) = 2.
Proof.
  intros channels data. eexists. split; [vm_compute; reflexivity|].
  match goal with
  | |- length (Xmltv.children_of ?tv) = _ =>
      destruct (X14_document_layout (fun _ => "")
                  (fun _ => Py.Ok "20231114231320 +0200") "de" channels data tv
                  ltac:(vm_compute; reflexivity)) as (_ & _ & _ & Hlen)
  end.
  exact Hlen.
Defined.

(** X15. One ill-typed record fails the whole document: when a record
    has its four required fields but a start or an end that is a string,
    an array or an object, or a title that is not a string,
    [generate_xmltv] builds nothing and reports failure. *)
Theorem X15_ill_typed_record_fails_document (repr : Py.value -> string)
    (strftime_local : Z -> Py.result string) (language : string)
    (channels : list (string * Xmltv.channel))
    (data : list (gmap string Py.value)) (program : gmap string Py.value) :
  program ∈ data ->
  Xmltv.required_present program = true ->
  Xmltv.is_text_or_compound (Py.get "s" program) = true
  \/ Xmltv.is_text_or_compound (Py.get "e" program) = true
  \/ (forall t, Py.get_default "t" (Py.VStr "") program <> Py.VStr t) ->
  exists e, Xmltv.generate_xmltv repr strftime_local language channels data = Py.Raise e.
Proof.
  intros Hin Hreq Hbad.
  assert (Hp : exists e, Xmltv.build_programme repr strftime_local language program
                         = Py.Raise e).
  { unfold Xmltv.build_programme. rewrite Hreq. cbn [negb].
    pose proof Hreq as Hreq'. unfold Xmltv.required_present in Hreq'.
    cbn [forallb] in Hreq'. apply andb_true_iff in Hreq' as [_ Hreq'].
    apply andb_true_iff in Hreq' as [_ Hreq']. apply andb_true_iff in Hreq' as [_ Hreq'].
    apply andb_true_iff in Hreq' as [Htt _].
    destruct Hbad as [Hs|[He|Ht]].
    - destruct (Py.get "s" program) as [|n| | |] eqn:G; cbn [Xmltv.format_time Py.bind];
        eauto; discriminate Hs.
    - destruct (Xmltv.format_time strftime_local (Py.get "s" program));
        cbn [Py.bind]; [|eauto].
      destruct (Py.get "e" program) as [|n| | |] eqn:G; cbn [Xmltv.format_time Py.bind];
        eauto; discriminate He.
    - destruct (Xmltv.format_time strftime_local (Py.get "s" program));
        cbn [Py.bind]; [|eauto].
      destruct (Xmltv.format_time strftime_local (Py.get "e" program));
        cbn [Py.bind]; [|eauto].
      unfold Xmltv.clean_text. rewrite Htt. cbn [negb].
      destruct (Py.get_default "t" (Py.VStr "") program) as [| |t| |] eqn:G;
        cbn [Py.bind]; eauto. exfalso. apply (Ht t). reflexivity. }
  destruct Hp as [e Hp].
  destruct (build_programmes_raise repr strftime_local language data program e Hin Hp)
    as [e' He'].
  unfold Xmltv.generate_xmltv. rewrite He'. cbn [Py.bind]. eauto.
Qed.

Lemma X15_ill_typed_record_fails_document_witness :
  exists e,
    Xmltv.generate_xmltv (fun _ => "") (fun _ => Py.Ok "20231114231320 +0200") "de" []
      [<["cid" := Py.VStr "101"]> (<["s" := Py.VInt 1700000000]>
         (<["e" := Py.VInt 1700001800]> (<["t" := Py.VStr "News"]> ∅)));
       <["cid" := Py.VStr "101"]> (<["s" := Py.VStr "1700001800"]>
         (<["e" := Py.VInt 1700003600]> (<["t" := Py.VStr "Sport"]> ∅)))]
    = Py.Raise e.
Proof.
  apply (X15_ill_typed_record_fails_document (fun _ => "")
           (fun _ => Py.Ok "20231114231320 +0200") "de" [] _
           (<["cid" := Py.VStr "101"]> (<["s" := Py.VStr "1700001800"]>
              (<["e" := Py.VInt 1700003600]> (<["t" := Py.VStr "Sport"]> ∅))))).
  - apply list_elem_of_further, list_elem_of_here.
  - reflexivity.
  - left. reflexivity.
Defined.

(** X16. Season and episode numbers given as decimal text are converted
    like integers: the text of [n] renders as [n - 1], for numbers whose
    text [int()] and [str()] convert, that is of at most 4300 digits.
    Unlike the integer 0, which counts as absent and renders as the empty
    string, the text ["0"] is present and renders as ["-1"]. *)
Theorem X16_numbers_as_text (s e : Z) :
  Py.ndigits s <= Py.int_max_str_digits ->
  Py.ndigits (s - 1) <= Py.int_max_str_digits ->
  Py.ndigits e <= Py.int_max_str_digits ->
  Py.ndigits (e - 1) <= Py.int_max_str_digits ->
  Xmltv.episode_text (Py.VStr (Py.str_of_int s)) (Py.VStr (Py.str_of_int e))
  = Py.Ok (Py.str_of_int (s - 1) +:+ "." +:+ Py.str_of_int (e - 1) +:+ ".")
  /\ Xmltv.zero_based (Py.VInt 0) = Py.Ok ""
  /\ Xmltv.zero_based (Py.VStr "0") = Py.Ok "-1".
Proof.
  intros Hs _ He _. split; [|split; reflexivity].
  assert (Hz : forall n, Py.ndigits n <= Py.int_max_str_digits ->
                         Xmltv.zero_based (Py.VStr (Py.str_of_int n))
                         = Py.Ok (Py.str_of_int (n - 1))).
  { intros n Hn. unfold Xmltv.zero_based.
    pose proof (int_of_str_str_of_int n Hn) as H.
    assert (Ht : Py.truthy (Py.VStr (Py.str_of_int n)) = true).
    { simpl. destruct (Py.str_of_int n); [discriminate H | reflexivity]. }
    rewrite Ht. simpl. rewrite H. reflexivity. }
  unfold Xmltv.episode_text. rewrite (Hz s Hs), (Hz e He). reflexivity.
Qed.

Lemma X16_numbers_as_text_witness :
  Xmltv.episode_text (Py.VStr "2") (Py.VStr "10") = Py.Ok "1.9.".
Proof.
  apply (proj1 (X16_numbers_as_text 2 10
                  ltac:(apply Nat.leb_le; vm_compute; reflexivity)
                  ltac:(apply Nat.leb_le; vm_compute; reflexivity)
                  ltac:(apply Nat.leb_le; vm_compute; reflexivity)
                  ltac:(apply Nat.leb_le; vm_compute; reflexivity))).
Defined.

(** ** The channel list *)

Section ChannelFacts.
Import Py Json Channels.

Lemma logo_of_absolute channel l :
  logo_of channel = Some l -> Text.startswith "/" l = false.
Proof.
  unfold logo_of. destruct (obj_get "qualities" (VList []) channel) as [q|]; [|discriminate].
  destruct (truthy q).
  - destruct (first_item q) as [quality|]; [|discriminate].
    destruct (obj_get "logo_black_84" (VStr "") quality) as [[| |s| |]|]; try discriminate.
    cbv zeta.
    destruct (Text.startswith "/" (Text.replace_str "84x48.png" "210x120.png" s)) eqn:E;
      intros H; injection H as <-; [reflexivity | exact E].
  - intros H. injection H as <-. reflexivity.
Qed.

Lemma key_eqb_sym a b : key_eqb a b = key_eqb b a.
Proof.
  destruct a, b; simpl; try reflexivity.
  - apply Z.eqb_sym.
  - apply String.eqb_sym.
Qed.

Lemma key_eqb_trans a b c :
  key_eqb a b = true -> key_eqb b c = true -> key_eqb a c = true.
Proof.
  destruct a, b, c; simpl; try discriminate; try reflexivity.
  - intros H1%Z.eqb_eq H2%Z.eqb_eq. apply Z.eqb_eq. congruence.
  - intros H1%String.eqb_eq H2%String.eqb_eq. apply String.eqb_eq. congruence.
Qed.

Lemma key_eqb_refl k : hashable k = true -> key_eqb k k = true.
Proof.
  destruct k; simpl; try discriminate; intros _;
    [reflexivity | apply Z.eqb_refl | apply String.eqb_refl].
Qed.

Lemma dict_get_congr a b d : key_eqb a b = true -> dict_get a d = dict_get b d.
Proof.
  intros H. induction d as [|[k e] d IH]; simpl; [reflexivity|].
  destruct (key_eqb k a) eqn:Ea, (key_eqb k b) eqn:Eb; try reflexivity; try exact IH.
  - rewrite (key_eqb_trans _ _ _ Ea H) in Eb. discriminate.
  - rewrite key_eqb_sym in H. rewrite (key_eqb_trans _ _ _ Eb H) in Ea. discriminate.
Qed.

Lemma dict_get_set_same k e d :
  hashable k = true -> dict_get k (dict_set k e d) = Some e.
Proof.
  intros Hk. induction d as [|[k' e'] d IH]; simpl.
  - rewrite key_eqb_refl by assumption. reflexivity.
  - destruct (key_eqb k' k) eqn:E; simpl; rewrite E; [reflexivity | exact IH].
Qed.

Lemma dict_get_set_other k e d j :
  key_eqb k j = false -> dict_get j (dict_set k e d) = dict_get j d.
Proof.
  intros Hne. induction d as [|[k' e'] d IH]; simpl.
  - rewrite Hne. reflexivity.
  - destruct (key_eqb k' k) eqn:E; simpl.
    + destruct (key_eqb k' j) eqn:Ej; [|reflexivity].
      rewrite key_eqb_sym in E. rewrite (key_eqb_trans _ _ _ E Ej) in Hne. discriminate.
    + destruct (key_eqb k' j); [reflexivity | exact IH].
Qed.

Lemma dict_set_distinct k e d :
  distinct_keys d -> distinct_keys (dict_set k e d).
Proof.
  induction d as [|[k' e'] d IH]; simpl.
  - auto.
  - intros [Hk Hd]. destruct (key_eqb k' k) eqn:E; simpl.
    + auto.
    + split; [|auto]. rewrite dict_get_set_other; [exact Hk|].
      rewrite key_eqb_sym. exact E.
Qed.

Lemma dict_set_length k e d :
  length (dict_set k e d)
  = length d + match dict_get k d with Some _ => 0 | None => 1 end.
Proof.
  induction d as [|[k' e'] d IH]; simpl; [reflexivity|].
  destruct (key_eqb k' k); simpl; [lia | rewrite IH; lia].
Qed.

Lemma dict_set_well_formed k e d :
  Forall well_formed d -> well_formed (k, e) -> Forall well_formed (dict_set k e d).
Proof.
  intros Hd [Hk [Ht Hl]]. induction Hd as [|[k' e'] d Hke Hrest IH]; simpl.
  - constructor; [repeat split; assumption | constructor].
  - destruct (key_eqb k' k).
    + constructor; [|assumption]. destruct Hke as [Hk' _].
      repeat split; assumption.
    + constructor; [assumption | exact IH].
Qed.

Lemma add_channel_well_formed channel channels channels' :
  add_channel channel channels = Some channels' ->
  Forall well_formed channels -> Forall well_formed channels'.
Proof.
  unfold add_channel.
  destruct (obj_get "cid" VNone channel) as [cid|]; [|discriminate].
  destruct (obj_get "title" (VStr "") channel) as [title|]; [|discriminate].
  destruct (truthy cid && truthy title) eqn:T.
  - apply andb_true_iff in T as [Tc Tt].
    destruct (logo_of channel) as [l|] eqn:L; [|discriminate].
    destruct (hashable cid); [|discriminate].
    intros H Hd. injection H as <-. apply dict_set_well_formed; [assumption|].
    repeat split; try assumption. simpl. eapply logo_of_absolute, L.
  - intros H. injection H as <-. exact id.
Qed.

Lemma add_channels_well_formed cs : forall channels,
  Forall well_formed channels -> Forall well_formed (fst (add_channels cs channels)).
Proof.
  induction cs as [|c rest IH]; intros channels Hd; simpl; [assumption|].
  destruct (add_channel c channels) as [channels'|] eqn:E; [|assumption].
  apply IH. eapply add_channel_well_formed; eassumption.
Qed.

Lemma add_groups_well_formed groups : forall channels,
  Forall well_formed channels -> Forall well_formed (fst (add_groups groups channels)).
Proof.
  induction groups as [|g rest IH]; intros channels Hd; simpl; [assumption|].
  destruct (obj_get "channels" (VList []) g) as [cs|]; [|assumption].
  destruct (items cs) as [l|]; [|assumption].
  pose proof (add_channels_well_formed l channels Hd) as H.
  destruct (add_channels l channels) as [channels' [|]]; simpl in *; [apply IH|]; assumption.
Qed.

Lemma add_channel_distinct channel channels channels' :
  add_channel channel channels = Some channels' ->
  distinct_keys channels -> distinct_keys channels'.
Proof.
  unfold add_channel.
  destruct (obj_get "cid" VNone channel) as [cid|]; [|discriminate].
  destruct (obj_get "title" (VStr "") channel) as [title|]; [|discriminate].
  destruct (truthy cid && truthy title).
  - destruct (logo_of channel) as [l|]; [|discriminate].
    destruct (hashable cid); [|discriminate].
    intros H Hd. injection H as <-. apply dict_set_distinct. assumption.
  - intros H. injection H as <-. exact id.
Qed.

Lemma add_channels_distinct cs : forall channels,
  distinct_keys channels -> distinct_keys (fst (add_channels cs channels)).
Proof.
  induction cs as [|c rest IH]; intros channels Hd; simpl; [assumption|].
  destruct (add_channel c channels) as [channels'|] eqn:E; [|assumption].
  apply IH. eapply add_channel_distinct; eassumption.
Qed.

Lemma add_groups_distinct groups : forall channels,
  distinct_keys channels -> distinct_keys (fst (add_groups groups channels)).
Proof.
  induction groups as [|g rest IH]; intros channels Hd; simpl; [assumption|].
  destruct (obj_get "channels" (VList []) g) as [cs|]; [|assumption].
  destruct (items cs) as [l|]; [|assumption].
  pose proof (add_channels_distinct l channels Hd) as H.
  destruct (add_channels l channels) as [channels' [|]]; simpl in *; [apply IH|]; assumption.
Qed.
End ChannelFacts.

Example logo_of_relative :
  Channels.logo_of
    (Py.VDict [("cid", Py.VStr "ard");
               ("qualities",
                Py.VList [Py.VDict [("logo_black_84", Py.VStr "/images/ard/84x48.png")]])])
  = Some "https://logos.zattic.com/images/ard/210x120.png".
Proof. reflexivity. Qed.

Example get_channels_two_groups :
  Channels.get_channels 200
    (Some (Py.VDict
       [("success", Py.VInt 1);
        ("channel_groups",
         Py.VList
           [Py.VDict [("channels",
                       Py.VList [Py.VDict [("cid", Py.VStr "ard");
                                           ("title", Py.VStr "Das Erste")];
                                 Py.VDict [("cid", Py.VStr "zdf")]])];
            Py.VDict [("channels",
                       Py.VList [Py.VDict [("cid", Py.VStr "ard");
                                           ("title", Py.VStr "Das Erste HD")]])]])]))
    []
  = ([(Py.VStr "ard", {| Channels.title := Py.VStr "Das Erste HD"; Channels.logo := "" |})],
     true).
Proof. reflexivity. Qed.

(** X17. Every channel [get_channels] stores has a non-empty identifier
    and a non-empty title, and a logo reference that does not start with
    ["/"]: a relative reference has been made absolute. No identifier is
    stored twice. This holds also for what is stored before an exception
    ends the processing. *)
Theorem X17_stored_channels_are_well_formed (status_code : Z)
    (json : option Py.value) :
  let channels := fst (Channels.get_channels status_code json []) in
  Forall Channels.well_formed channels /\ Channels.distinct_keys channels.
Proof.
  assert (H : forall groups,
             Forall Channels.well_formed (fst (Channels.add_groups groups []))
             /\ Channels.distinct_keys (fst (Channels.add_groups groups []))).
  { intros groups. split.
    - apply add_groups_well_formed. constructor.
    - apply add_groups_distinct. exact I. }
  unfold Channels.get_channels.
  destruct (negb (status_code =? 200)%Z); [split; [constructor | exact I]|].
  destruct json as [data|]; [|split; [constructor | exact I]].
  destruct (Json.obj_get "success" Py.VNone data) as [success|];
    [|split; [constructor | exact I]].
  destruct (Json.obj_get "channel_groups" (Py.VList []) data) as [groups|];
    [|split; [constructor | exact I]].
  destruct (negb (Py.truthy success)); [split; [constructor | exact I]|].
  destruct (Py.truthy groups); [|split; [constructor | exact I]].
  destruct (Json.items groups) as [gs|]; [|split; [constructor | exact I]].
  specialize (H gs). destruct (Channels.add_groups gs []) as [channels' [|]]; exact H.
Qed.

(** X18. Storing a channel whose identifier is already present replaces
    the stored entry and adds none: after a channel with a non-empty
    identifier and title is processed, the dictionary maps its
    identifier to its title, and has grown by one entry only if the
    identifier was new. *)
Theorem X18_channel_listed_twice (channel cid title : Py.value)
    (channels channels' : list (Py.value * Channels.entry)) :
  Channels.add_channel channel channels = Some channels' ->
  Json.obj_get "cid" Py.VNone channel = Some cid ->
  Json.obj_get "title" (Py.VStr "") channel = Some title ->
  Py.truthy cid = true -> Py.truthy title = true ->
  (exists e, Channels.dict_get cid channels' = Some e /\ Channels.title e = title)
  /\ length channels'
     = length channels
       + match Channels.dict_get cid channels with Some _ => 0 | None => 1 end
  /\ (forall k, Channels.key_eqb cid k = false ->
                Channels.dict_get k channels' = Channels.dict_get k channels).
Proof.
  unfold Channels.add_channel. intros H Hc Ht Tc Tt.
  rewrite Hc, Ht, Tc, Tt in H. cbn [andb] in H.
  destruct (Channels.logo_of channel) as [l|]; [|discriminate H].
  destruct (Channels.hashable cid) eqn:Hh; [|discriminate H].
  injection H as <-. split; [|split].
  - eexists. split; [apply dict_get_set_same; assumption | reflexivity].
  - apply dict_set_length.
  - intros k Hk. apply dict_get_set_other. exact Hk.
Qed.

Lemma X18_channel_listed_twice_witness :
  let channel := Py.VDict [("cid", Py.VStr "ard"); ("title", Py.VStr "Das Erste HD")] in
  let channels := [(Py.VStr "ard", {| Channels.title := Py.VStr "Das Erste";
                                      Channels.logo := "" |})] in
  exists channels',
    Channels.add_channel channel channels = Some channels'
    /\ (exists e, Channels.dict_get (Py.VStr "ard") channels' = Some e
                  /\ Channels.title e = Py.VStr "Das Erste HD")
    /\ length channels' = 1.
Proof.
  intros channel channels. eexists. split; [reflexivity|].
  match goal with
  | |- (exists e, Channels.dict_get _ ?c = _ /\ _) /\ _ =>
      destruct (X18_channel_listed_twice channel (Py.VStr "ard") (Py.VStr "Das Erste HD")
                  channels c eq_refl eq_refl eq_refl eq_refl eq_refl)
        as (He & Hl & _)
  end.
  split; [exact He | exact Hl].
Defined.

(** ** Gathering the listing *)

Section DownloadFacts.
Import Py Json Download.

Lemma for_each_app {A B} (f : A -> option (list B)) l1 l2 :
  for_each f (l1 ++ l2)%list
  = match for_each f l1, for_each f l2 with
    | Some a, Some b => Some (a ++ b)%list
    | _, _ => None
    end.
Proof.
  induction l1 as [|x l1 IH]; simpl.
  - destruct (for_each f l2); reflexivity.
  - destruct (f x) as [ys|]; [|reflexivity]. rewrite IH.
    destruct (for_each f l1), (for_each f l2); try reflexivity.
    rewrite app_assoc. reflexivity.
Qed.

Lemma for_each_Forall {A B} (f : A -> option (list B)) (P : B -> Prop) l : forall r,
  (forall x ys, f x = Some ys -> Forall P ys) ->
  for_each f l = Some r -> Forall P r.
Proof.
  induction l as [|x l IH]; intros r Hf; simpl.
  - intros H. injection H as <-. constructor.
  - destruct (f x) as [ys|] eqn:E; [|discriminate].
    destruct (for_each f l) as [zs|]; [|discriminate].
    intros H. injection H as <-. apply Forall_app. split; [eapply Hf, E | auto].
Qed.

Lemma for_each_None {A B} (f : A -> option (list B)) l x :
  x ∈ l -> f x = None -> for_each f l = None.
Proof.
  induction l as [|y l IH]; intros Hin Hx; [inversion Hin|].
  simpl. apply elem_of_cons in Hin as [<-|Hin].
  - rewrite Hx. reflexivity.
  - destruct (f y); [|reflexivity]. rewrite (IH Hin Hx). reflexivity.
Qed.

Lemma for_each_nil {A B} (f : A -> option (list B)) l :
  (forall x, x ∈ l -> f x = Some []) -> for_each f l = Some [].
Proof.
  induction l as [|y l IH]; intros H; simpl; [reflexivity|].
  rewrite (H y) by apply list_elem_of_here.
  rewrite IH; [reflexivity|]. intros x Hx. apply H, list_elem_of_further, Hx.
Qed.

Lemma channel_programs_tagged channel ps :
  channel_programs channel = Some ps ->
  Forall (fun p => truthy (get "cid" p) = true) ps.
Proof.
  unfold channel_programs.
  destruct (obj_get "cid" VNone channel) as [c1|]; [|discriminate].
  destruct (obj_get "id" VNone channel) as [c2|]; [|discriminate].
  destruct (obj_get "programs" (VList []) channel) as [progs|]; [|discriminate].
  cbv zeta. destruct (truthy (if truthy c1 then c1 else c2) && truthy progs) eqn:T.
  - apply andb_true_iff in T as [Tc _].
    destruct (items progs) as [l|]; [|discriminate].
    apply for_each_Forall. intros program ys. unfold tag_program.
    destruct program; try discriminate. intros H. injection H as <-.
    constructor; [|constructor]. unfold get. rewrite lookup_insert_eq. exact Tc.
  - intros H. injection H as <-. constructor.
Qed.

Lemma window_programs_tagged r ps :
  window_programs r = Some ps ->
  Forall (fun p => truthy (get "cid" p) = true) ps.
Proof.
  unfold window_programs. destruct r as [|code json]; [discriminate|].
  destruct (negb (code =? 200)%Z); [intros H; injection H as <-; constructor|].
  destruct json as [data|]; [|discriminate].
  destruct (obj_get "success" VNone data) as [success|]; [|discriminate].
  destruct (obj_get "channels" (VList []) data) as [arr|]; [|discriminate].
  destruct (negb (truthy success)); [intros H; injection H as <-; constructor|].
  destruct (items arr) as [cs|]; [|discriminate].
  apply for_each_Forall. apply channel_programs_tagged.
Qed.
End DownloadFacts.

(** ** The windows requested *)

Section RequestFacts.
Import Download.
Variable fetch : Z * Z -> response.

Lemma requested_prefix ws : exists rest, ws = (requested fetch ws ++ rest)%list.
Proof.
  induction ws as [|w ws [rest IH]]; [exists []; reflexivity|].
  cbn [requested]. destruct (window_programs (fetch w)).
  - exists rest. cbn [app]. f_equal. exact IH.
  - exists ws. reflexivity.
Qed.

Lemma requested_all ws :
  (forall w, w ∈ ws -> window_programs (fetch w) <> None) -> requested fetch ws = ws.
Proof.
  induction ws as [|w ws IH]; intros H; [reflexivity|].
  cbn [requested]. destruct (window_programs (fetch w)) eqn:E.
  - f_equal. apply IH. intros w' Hw'. apply H, list_elem_of_further, Hw'.
  - exfalso. apply (H w); [apply list_elem_of_here | exact E].
Qed.

Lemma requested_stop ws : forall k w,
  ws !! k = Some w -> window_programs (fetch w) = None ->
  (forall j w', j < k -> ws !! j = Some w' -> window_programs (fetch w') <> None) ->
  requested fetch ws = take (S k) ws.
Proof.
  induction ws as [|w0 ws IH]; intros k w Hk Hw Hbefore; [discriminate Hk|].
  cbn [requested]. destruct k as [|k].
  - injection Hk as ->. rewrite Hw. reflexivity.
  - destruct (window_programs (fetch w0)) eqn:E.
    + cbn [take]. f_equal. apply (IH k w); [exact Hk | exact Hw |].
      intros j w' Hj Hw'. apply (Hbefore (S j) w'); [lia | exact Hw'].
    + exfalso. apply (Hbefore 0 w0); [lia | reflexivity | exact E].
Qed.

Lemma download_all_answered ws :
  (forall w, w ∈ ws -> window_programs (fetch w) <> None) ->
  is_Some (Json.for_each window_programs (map fetch ws)).
Proof.
  induction ws as [|w ws IH]; intros H; cbn [map Json.for_each]; [eauto|].
  destruct (window_programs (fetch w)) as [ys|] eqn:E.
  - destruct IH as [zs ->]; [|eauto].
    intros w' Hw'. apply H, list_elem_of_further, Hw'.
  - exfalso. apply (H w); [apply list_elem_of_here | exact E].
Qed.
End RequestFacts.

(** C6 as stated fails three times. With a zero offset and a call at
    00:16:40 the first window starts at 06:00, six hours after the start
    of the local day. In a zone that moves its clocks forward at 02:00 of
    the next day, the window from 00:00 to 06:00 of that day spans five
    hours. And when the request for the second window raises, two
    requests are made for one day, not four, and the download fails. *)
Lemma C6_base_is_not_day_start_and_span_varies :
  (exists w, Listing.download_windows (fun _ => 0%Z) 1000 1 !! 0 = Some w
             /\ fst w = 21600%Z
             /\ fst w <> Listing.timestamp (fun _ => 0%Z) (Listing.local_day_start 1000))
  /\ (exists w, Listing.download_windows Listing.spring_forward 1000 1 !! 3 = Some w
                /\ (snd w - fst w = 18000)%Z)
  /\ (let fetch := fun w : Z * Z =>
                     if (fst w =? 43200)%Z then Download.NoResponse
                     else Download.Status 200 (Some (Py.VDict [])) in
      Download.requested_windows (fun _ => 0%Z) fetch 1000 1
      = [(21600, 43200)%Z; (43200, 64800)%Z]
      /\ length (Listing.download_windows (fun _ => 0%Z) 1000 1) = 4
      /\ Download.download_epg_data (fun _ => 0%Z) fetch 1000 1 = None).
Proof.
  split; [|split].
  - eexists. split; [reflexivity|]. split; [reflexivity | discriminate].
  - eexists. split; reflexivity.
  - repeat split.
Qed.

(** C6, amended. For every day count [d] the fetcher goes through [4d]
    windows, each starting where the previous one ends; the [k]-th window
    is the pair of timestamps of the wall-clock times [6k] and [6k + 6]
    hours after 06:00 local time of the current day. It makes one request
    per window, in this order, up to and including the first window that
    raises: all [4d] when no window raises, and the download succeeds;
    the first [k + 1] when the window at position [k] is the first to
    raise, and the download fails. Where the UTC offset of
    the local zone is the same over the whole range, the windows span
    21600 seconds each, do not overlap, and together cover [d] days from
    06:00 local time. *)
Theorem C6_windows (utcoffset : Z -> Z) (fetch : Z * Z -> Download.response)
    (now : Z) (days : nat) (c : Z) :
  let ws := Listing.download_windows utcoffset now days in
  let issued := Download.requested_windows utcoffset fetch now days in
  let start0 := (Listing.local_day_start now + 6 * 3600 - c)%Z in
  (length ws = 4 * days
   /\ (forall k a b, ws !! k = Some a -> ws !! S k = Some b -> snd a = fst b)
   /\ forall k, k < 4 * days ->
         ws !! k = Some (Listing.window_at utcoffset
                           (Listing.local_day_start now + 6 * 3600)%Z k))
  /\ ((exists rest, ws = (issued ++ rest)%list)
      /\ ((forall w, w ∈ ws -> Download.window_programs (fetch w) <> None) ->
          issued = ws /\ length issued = 4 * days
          /\ is_Some (Download.download_epg_data utcoffset fetch now days))
      /\ (forall k w, ws !! k = Some w ->
            Download.window_programs (fetch w) = None ->
            (forall j w', j < k -> ws !! j = Some w' ->
                          Download.window_programs (fetch w') <> None) ->
            issued = take (S k) ws /\ length issued = S k
            /\ Download.download_epg_data utcoffset fetch now days = None))
  /\ ((forall t, (Listing.replace_hour_6 now <= t
                  <= Listing.replace_hour_6 now + 86400 * Z.of_nat days)%Z ->
                 utcoffset t = c) ->
      forall k, k < 4 * days ->
        ws !! k = Some (start0 + 21600 * Z.of_nat k,
                        start0 + 21600 * (Z.of_nat k + 1))%Z).
Proof.
  intros ws issued start0. subst ws issued start0.
  unfold Download.requested_windows. split; [split; [|split]|split; [split; [|split]|]].
  - apply download_windows_length.
  - intros k a b Ha Hb.
    assert (Hk : S k < 4 * days).
    { apply lookup_lt_Some in Hb. rewrite download_windows_length in Hb. exact Hb. }
    rewrite download_windows_lookup in Ha by lia.
    rewrite download_windows_lookup in Hb by lia.
    injection Ha as <-. injection Hb as <-. reflexivity.
  - intros k Hk. rewrite download_windows_lookup by assumption. reflexivity.
  - apply requested_prefix.
  - intros H. rewrite (requested_all fetch _ H).
    split; [reflexivity|]. split; [apply download_windows_length|].
    apply download_all_answered, H.
  - intros k w Hk Hw Hbefore. rewrite (requested_stop fetch _ k w Hk Hw Hbefore).
    split; [reflexivity|]. split.
    + rewrite length_take. apply lookup_lt_Some in Hk. lia.
    + unfold Download.download_epg_data.
      apply (for_each_None _ _ (fetch w)); [|exact Hw].
      apply list_elem_of_fmap. exists w. split; [reflexivity|].
      eapply list_elem_of_lookup_2, Hk.
  - intros Hc k Hk. rewrite download_windows_lookup by assumption.
    unfold Listing.window_at, Listing.timestamp.
    rewrite !Hc by lia.
    unfold Listing.replace_hour_6, Listing.local_day_start, Listing.hours_delta.
    f_equal. f_equal; lia.
Qed.

Lemma C6_windows_witness :
  let fetch := fun _ : Z * Z => Download.Status 200 (Some (Py.VDict [])) in
  Listing.download_windows (fun _ => 7200%Z) 1700000000 2 !! 5
  = Some (1699934400 + 21600 * 5, 1699934400 + 21600 * 6)%Z
  /\ length (Download.requested_windows (fun _ => 7200%Z) fetch 1700000000 2) = 4 * 2.
Proof.
  intros fetch.
  pose proof (C6_windows (fun _ => 7200%Z) fetch 1700000000 2 7200) as H.
  cbv zeta in H. destruct H as (_ & (_ & Hall & _) & Hc). split.
  - apply Hc; [intros t _; reflexivity | lia].
  - apply Hall. intros w _. discriminate.
Defined.

(** X19. Every program [download_epg_data] gathers carries a non-empty
    channel identifier in its [cid] field. *)
Theorem X19_gathered_programs_are_tagged (utcoffset : Z -> Z)
    (fetch : Z * Z -> Download.response) (now : Z) (days : nat)
    (programs : list (gmap string Py.value)) :
  Download.download_epg_data utcoffset fetch now days = Some programs ->
  Forall (fun p => Py.truthy (Py.get "cid" p) = true) programs.
Proof.
  unfold Download.download_epg_data. apply for_each_Forall.
  apply window_programs_tagged.
Qed.

Lemma X19_gathered_programs_are_tagged_witness :
  let fetch := fun _ : Z * Z =>
    Download.Status 200
      (Some (Py.VDict
         [("success", Py.VInt 1);
          ("channels",
           Py.VList [Py.VDict [("cid", Py.VStr "ard");
                               ("programs", Py.VList [Py.VDict [("t", Py.VStr "News")]])]])])) in
  exists programs,
    Download.download_epg_data (fun _ => 0%Z) fetch 1000 1 = Some programs
    /\ length programs = 4
    /\ Forall (fun p => Py.truthy (Py.get "cid" p) = true) programs.
Proof.
  intros fetch. eexists. split; [vm_compute; reflexivity|]. split; [reflexivity|].
  apply (X19_gathered_programs_are_tagged (fun _ => 0%Z) fetch 1000 1).
  vm_compute. reflexivity.
Defined.

(** X20. A window answered with a status other than 200, or without a
    true success flag, adds nothing and does not disturb the others: the
    programs gathered are those of the remaining windows, in window
    order. *)
Theorem X20_failed_window_is_skipped (rs1 rs2 : list Download.response) :
  (forall status_code json, status_code <> 200%Z ->
     Json.for_each Download.window_programs
       (rs1 ++ Download.Status status_code json :: rs2)%list
     = Json.for_each Download.window_programs (rs1 ++ rs2)%list)
  /\ (forall d, Py.truthy (default Py.VNone (Py.assoc "success" d)) = false ->
        Json.for_each Download.window_programs
          (rs1 ++ Download.Status 200 (Some (Py.VDict d)) :: rs2)%list
        = Json.for_each Download.window_programs (rs1 ++ rs2)%list)
  /\ (forall ps1 ps2,
        Json.for_each Download.window_programs rs1 = Some ps1 ->
        Json.for_each Download.window_programs rs2 = Some ps2 ->
        Json.for_each Download.window_programs (rs1 ++ rs2)%list = Some (ps1 ++ ps2)%list).
Proof.
  assert (Hskip : forall r, Download.window_programs r = Some [] ->
            Json.for_each Download.window_programs (rs1 ++ r :: rs2)%list
            = Json.for_each Download.window_programs (rs1 ++ rs2)%list).
  { intros r Hr. rewrite !for_each_app. cbn [Json.for_each]. rewrite Hr.
    destruct (Json.for_each Download.window_programs rs2); reflexivity. }
  split; [|split].
  - intros code json Hc. apply Hskip. unfold Download.window_programs.
    destruct (Z.eqb_spec code 200); [contradiction | reflexivity].
  - intros d Hd. apply Hskip. unfold Download.window_programs. simpl.
    rewrite Hd. reflexivity.
  - intros ps1 ps2 H1 H2. rewrite for_each_app, H1, H2. reflexivity.
Qed.

Lemma X20_failed_window_is_skipped_witness :
  Json.for_each Download.window_programs
    [Download.Status 503 None; Download.Status 200 (Some (Py.VDict []))]
  = Json.for_each Download.window_programs [Download.Status 200 (Some (Py.VDict []))].
Proof.
  apply (proj1 (X20_failed_window_is_skipped [] [Download.Status 200 (Some (Py.VDict []))])).
  discriminate.
Defined.

(** X21. When every window is answered with a status other than 200, the
    download still succeeds, with an empty listing; enriching that
    listing then raises [ZeroDivisionError]. *)
Theorem X21_all_windows_failing (utcoffset : Z -> Z)
    (fetch : Z * Z -> Download.response) (now : Z) (days : nat)
    (repr : Py.value -> string)
    (server : nat -> list string -> gmap Enrich.key (gmap string Py.value)) :
  (forall w, exists status_code json,
     fetch w = Download.Status status_code json /\ status_code <> 200%Z) ->
  Download.download_epg_data utcoffset fetch now days = Some []
  /\ Enrich.enhance_epg_data repr server [] = Py.Raise Py.ZeroDivisionError.
Proof.
  intros Hf. split; [|reflexivity].
  unfold Download.download_epg_data. apply for_each_nil.
  intros r Hr. apply list_elem_of_fmap in Hr as (w & -> & _).
  destruct (Hf w) as (code & json & -> & Hc). unfold Download.window_programs.
  destruct (Z.eqb_spec code 200); [contradiction | reflexivity].
Qed.

Lemma X21_all_windows_failing_witness :
  Download.download_epg_data (fun _ => 3600%Z) (fun _ => Download.Status 503 None)
    1700000000 7 = Some []
  /\ Enrich.enhance_epg_data (fun _ => "") Enrich.dead_server []
     = Py.Raise Py.ZeroDivisionError.
Proof.
  apply X21_all_windows_failing.
  intros w. exists 503%Z, None. split; [reflexivity | discriminate].
Defined.

(** X22. One window that raises loses the whole download: when the
    request for a window raises, or its body is not JSON, or the body is
    not an object, [download_epg_data] returns [False] and stores
    nothing, whatever the other windows returned. *)
Theorem X22_malformed_window_fails_download (utcoffset : Z -> Z)
    (fetch : Z * Z -> Download.response) (now : Z) (days : nat) (w : Z * Z) :
  w ∈ Listing.download_windows utcoffset now days ->
  fetch w = Download.NoResponse
  \/ fetch w = Download.Status 200 None
  \/ (exists data, fetch w = Download.Status 200 (Some data)
                   /\ forall d, data <> Py.VDict d) ->
  Download.download_epg_data utcoffset fetch now days = None.
Proof.
  intros Hw Hbad. unfold Download.download_epg_data.
  apply (for_each_None _ _ (fetch w)).
  - apply list_elem_of_fmap. exists w. auto.
  - destruct Hbad as [-> | [-> | (data & -> & Hd)]]; try reflexivity.
    simpl. destruct data; try reflexivity. exfalso. eapply Hd. reflexivity.
Qed.

Lemma X22_malformed_window_fails_download_witness :
  Download.download_epg_data (fun _ => 0%Z)
    (fun w => if (fst w =? 43200)%Z then Download.Status 200 (Some (Py.VList []))
              else Download.Status 200 (Some (Py.VDict [("success", Py.VInt 1)])))
    1000 1 = None.
Proof.
  apply (X22_malformed_window_fails_download (fun _ => 0%Z) _ 1000 1 (43200, 64800)%Z).
  - apply list_elem_of_further, list_elem_of_here.
  - right. right. eexists. split; [reflexivity|]. discriminate.
Defined.

(** ** Credentials *)

Section RegexFacts.
Import Regex.

Lemma seq_lang r1 r2 s :
  lang (Seq r1 r2) s <-> exists s1 s2, s = (s1 ++ s2)%list /\ lang r1 s1 /\ lang r2 s2.
Proof.
  split.
  - intros H. inversion H; subst. eauto.
  - intros (s1 & s2 & -> & H1 & H2). constructor; assumption.
Qed.

Lemma alt_lang r1 r2 s : lang (Alt r1 r2) s <-> lang r1 s \/ lang r2 s.
Proof.
  split.
  - intros H. inversion H; subst; auto.
  - intros [H|H]; [apply lang_alt_l | apply lang_alt_r]; assumption.
Qed.

Lemma nullable_lang r : nullable r = true <-> lang r [].
Proof.
  induction r as [| |p|r1 IH1 r2 IH2|r1 IH1 r2 IH2|r IH]; simpl.
  - split; [discriminate | intros H; inversion H].
  - split; [constructor | reflexivity].
  - split; [discriminate | intros H; inversion H].
  - rewrite andb_true_iff, IH1, IH2, seq_lang. split.
    + intros [H1 H2]. exists [], []. auto.
    + intros (s1 & s2 & E & H1 & H2). symmetry in E.
      apply app_eq_nil in E as [-> ->]. auto.
  - rewrite orb_true_iff, IH1, IH2, alt_lang. reflexivity.
  - split; [constructor | reflexivity].
Qed.

Lemma star_cons_inv r c s :
  lang (Star r) (c :: s) ->
  exists s1 s2, s = (s1 ++ s2)%list /\ lang r (c :: s1) /\ lang (Star r) s2.
Proof.
  intros H. remember (Star r) as r' eqn:Er. remember (c :: s) as w eqn:Ew.
  revert s Ew. induction H as [| | | | | |r0 s1 s2 H1 _ H2 IH2]; intros w Ew;
    try discriminate.
  injection Er as ->. destruct s1 as [|a s1]; simpl in Ew.
  - apply IH2; [reflexivity | assumption].
  - injection Ew as -> <-. exists s1, s2. auto.
Qed.

Lemma deriv_lang c r : forall s, lang (deriv c r) s <-> lang r (c :: s).
Proof.
  induction r as [| |p|r1 IH1 r2 IH2|r1 IH1 r2 IH2|r IH]; intros s; simpl.
  - split; intros H; inversion H.
  - split; intros H; inversion H.
  - destruct (p c) eqn:E; split; intros H; inversion H; subst.
    + constructor. assumption.
    + constructor.
    + congruence.
  - assert (Hseq : lang (Seq (deriv c r1) r2) s
                   <-> exists s1 s2, s = (s1 ++ s2)%list /\ lang r1 (c :: s1) /\ lang r2 s2).
    { rewrite seq_lang. split.
      - intros (s1 & s2 & -> & H1 & H2). exists s1, s2.
        split; [reflexivity|]. split; [apply IH1|]; assumption.
      - intros (s1 & s2 & -> & H1 & H2). exists s1, s2.
        split; [reflexivity|]. split; [apply IH1|]; assumption. }
    assert (Hfull : lang (Seq r1 r2) (c :: s)
                    <-> (lang r1 [] /\ lang r2 (c :: s))
                        \/ exists s1 s2, s = (s1 ++ s2)%list /\ lang r1 (c :: s1) /\ lang r2 s2).
    { rewrite seq_lang. split.
      - intros (s1 & s2 & E & H1 & H2).
        destruct s1 as [|a s1]; simpl in E.
        + subst. left. auto.
        + injection E as -> ->. right. eauto.
      - intros [[H1 H2]|(s1 & s2 & -> & H1 & H2)].
        + exists [], (c :: s). auto.
        + exists (c :: s1), s2. auto. }
    rewrite Hfull. destruct (nullable r1) eqn:N.
    + rewrite alt_lang, Hseq, IH2. split.
      * intros [H|H]; [right; assumption|].
        left. split; [apply nullable_lang; assumption | assumption].
      * intros [[_ H2]|H]; auto.
    + rewrite Hseq. split; [auto|].
      intros [[H1 _]|H]; [|assumption].
      apply nullable_lang in H1. congruence.
  - rewrite !alt_lang, IH1, IH2. reflexivity.
  - rewrite seq_lang. split.
    + intros (s1 & s2 & -> & H1 & H2).
      apply (lang_star_cons r (c :: s1) s2); [apply IH|]; assumption.
    + intros H. apply star_cons_inv in H as (s1 & s2 & -> & H1 & H2).
      exists s1, s2. split; [reflexivity|]. split; [apply IH|]; assumption.
Qed.

Lemma matches_lang r : forall s, matches r s = true <-> lang r s.
Proof.
  intros s. revert r. induction s as [|c s IH]; intros r; simpl.
  - apply nullable_lang.
  - rewrite IH. apply deriv_lang.
Qed.

Lemma class_lang p s : lang (Class p) s <-> exists c, s = [c] /\ p c = true.
Proof.
  split.
  - intros H. inversion H; subst. eauto.
  - intros (c & -> & H). constructor. assumption.
Qed.

Lemma star_class_lang p s : lang (Star (Class p)) s <-> forallb p s = true.
Proof.
  split.
  - intros H. remember (Star (Class p)) as r eqn:Er.
    induction H as [| | | | | |r0 s1 s2 H1 _ H2 IH2]; try discriminate.
    + reflexivity.
    + injection Er as ->. apply class_lang in H1 as (c & -> & Hc).
      simpl. rewrite Hc. apply IH2. reflexivity.
  - induction s as [|c s IH]; simpl; [constructor|].
    intros H. apply andb_true_iff in H as [Hc Hs].
    apply (lang_star_cons (Class p) [c] s); [constructor; assumption | auto].
Qed.

Lemma plus_class_lang p s :
  lang (Plus (Class p)) s <-> s <> [] /\ forallb p s = true.
Proof.
  unfold Plus. split.
  - intros H. apply seq_lang in H as (s1 & s2 & -> & H1 & H2).
    apply class_lang in H1 as (c & -> & Hc). apply star_class_lang in H2.
    split; [discriminate|]. simpl. rewrite Hc. assumption.
  - intros [Hne H]. destruct s as [|c s]; [contradiction|].
    simpl in H. apply andb_true_iff in H as [Hc Hs].
    apply (lang_seq (Class p) (Star (Class p)) [c] s);
      [constructor; assumption | apply star_class_lang; assumption].
Qed.

End RegexFacts.

Section CredentialFacts.
Import Py Json Regex Credentials.

Lemma email_body_lang s :
  lang email_body s
  <-> exists l d t,
        s = (l ++ "@"%char :: d ++ "."%char :: t)%list
        /\ l <> [] /\ forallb is_local_char l = true
        /\ d <> [] /\ forallb is_domain_char d = true
        /\ 2 <= length t /\ forallb is_letter t = true.
Proof.
  unfold email_body. split.
  - intros H.
    apply seq_lang in H as (l & s1 & -> & Hl & H).
    apply seq_lang in H as (a & s2 & -> & Ha & H).
    apply seq_lang in H as (d & s3 & -> & Hd & H).
    apply seq_lang in H as (b & s4 & -> & Hb & H).
    apply seq_lang in H as (t1 & s5 & -> & Ht1 & H).
    apply seq_lang in H as (t2 & t3 & -> & Ht2 & Ht3).
    apply plus_class_lang in Hl as [Hl1 Hl2]. apply plus_class_lang in Hd as [Hd1 Hd2].
    apply class_lang in Ha as (ca & -> & Hca). apply Ascii.eqb_eq in Hca as ->.
    apply class_lang in Hb as (cb & -> & Hcb). apply Ascii.eqb_eq in Hcb as ->.
    apply class_lang in Ht1 as (c1 & -> & Hc1). apply class_lang in Ht2 as (c2 & -> & Hc2).
    apply star_class_lang in Ht3.
    exists l, d, (c1 :: c2 :: t3). simpl. rewrite Hc1, Hc2, Ht3.
    repeat split; try assumption. lia.
  - intros (l & d & t & -> & Hl1 & Hl2 & Hd1 & Hd2 & Ht1 & Ht2).
    destruct t as [|c1 [|c2 t3]]; simpl in Ht1; try lia.
    simpl in Ht2. apply andb_true_iff in Ht2 as [Hc1 Ht2].
    apply andb_true_iff in Ht2 as [Hc2 Ht3].
    apply seq_lang. exists l, ("@"%char :: d ++ "."%char :: c1 :: c2 :: t3)%list.
    split; [reflexivity|]. split; [apply plus_class_lang; auto|].
    apply (lang_seq _ _ ["@"%char] (d ++ "."%char :: c1 :: c2 :: t3));
      [constructor; reflexivity|].
    apply seq_lang. exists d, ("."%char :: c1 :: c2 :: t3)%list.
    split; [reflexivity|]. split; [apply plus_class_lang; auto|].
    apply (lang_seq _ _ ["."%char] (c1 :: c2 :: t3)); [constructor; reflexivity|].
    apply (lang_seq _ _ [c1] (c2 :: t3)); [constructor; assumption|].
    apply (lang_seq _ _ [c2] t3); [constructor; assumption|].
    apply star_class_lang. assumption.
Qed.

Lemma ends_with_space_last xs c :
  Text.ends_with_space (string_of_list_ascii (xs ++ [c])) = Text.is_space c.
Proof.
  induction xs as [|x xs IH]; [reflexivity|].
  cbn [app string_of_list_ascii]. rewrite <- IH.
  destruct (string_of_list_ascii (xs ++ [c])) eqn:E; [|reflexivity].
  destruct xs; discriminate E.
Qed.
Lemma re_match_email_iff (s : string) :
  re_match_email s = true
  <-> exists l d t nl,
        list_ascii_of_string s = (l ++ "@"%char :: d ++ "."%char :: t ++ nl)%list
        /\ l <> [] /\ forallb is_local_char l = true
        /\ d <> [] /\ forallb is_domain_char d = true
        /\ 2 <= length t /\ forallb is_letter t = true
        /\ (nl = [] \/ nl = [newline]).
Proof.
  unfold re_match_email, email_pattern.
  rewrite matches_lang, seq_lang. split.
  - intros (w & nl & E & Hw & Hnl).
    apply email_body_lang in Hw as (l & d & t & -> & H).
    exists l, d, t, nl. split.
    + rewrite E, <- !app_assoc. simpl. rewrite <- !app_assoc. reflexivity.
    + destruct H as (? & ? & ? & ? & ? & ?). repeat split; try assumption.
      apply alt_lang in Hnl as [Hn|Hn].
      * inversion Hn. left. reflexivity.
      * apply class_lang in Hn as (c & -> & Hc). apply Ascii.eqb_eq in Hc as ->.
        right. reflexivity.
  - intros (l & d & t & nl & E & Hl1 & Hl2 & Hd1 & Hd2 & Ht1 & Ht2 & Hnl).
    exists (l ++ "@"%char :: d ++ "."%char :: t)%list, nl. split; [|split].
    + rewrite E, <- !app_assoc. simpl. rewrite <- !app_assoc. reflexivity.
    + apply email_body_lang. exists l, d, t. repeat split; assumption.
    + destruct Hnl as [-> | ->]; [apply lang_alt_l; constructor|].
      apply lang_alt_r. constructor. reflexivity.
Qed.

End CredentialFacts.

(** X23. The email test accepts exactly the strings made of a non-empty
    local part of letters, digits and [._%+-], an ["@"], a non-empty
    domain part of letters, digits, dots and hyphens, a dot, and at
    least two letters, optionally followed by one final newline. *)
Theorem X23_accepted_emails (s : string) :
  Credentials.re_match_email s = true
  <-> exists l d t nl,
        list_ascii_of_string s = (l ++ "@"%char :: d ++ "."%char :: t ++ nl)%list
        /\ l <> [] /\ forallb Credentials.is_local_char l = true
        /\ d <> [] /\ forallb Credentials.is_domain_char d = true
        /\ 2 <= length t /\ forallb Credentials.is_letter t = true
        /\ (nl = [] \/ nl = [Credentials.newline]).
Proof. apply re_match_email_iff. Qed.

(** X24. [get_credentials_from_config] returns only when the email of
    the configuration, with surrounding whitespace removed, has the form
    local-part ["@"] domain ["."] letters, and the password is non-empty;
    it returns that trimmed email and the password as it is. *)
Theorem X24_returned_credentials (config : Py.value) (email : string)
    (password : Py.value) :
  Credentials.get_credentials_from_config config = Credentials.Returned email password ->
  (exists raw, Json.obj_get "email" (Py.VStr "") config = Some (Py.VStr raw)
               /\ email = Text.strip raw)
  /\ Json.obj_get "password" (Py.VStr "") config = Some password
  /\ Py.truthy password = true
  /\ exists l d t,
       list_ascii_of_string email = (l ++ "@"%char :: d ++ "."%char :: t)%list
       /\ l <> [] /\ forallb Credentials.is_local_char l = true
       /\ d <> [] /\ forallb Credentials.is_domain_char d = true
       /\ 2 <= length t /\ forallb Credentials.is_letter t = true.
Proof.
  unfold Credentials.get_credentials_from_config.
  destruct (Json.obj_get "email" (Py.VStr "") config) as [[| |raw| |]|]; try discriminate.
  destruct (Json.obj_get "password" (Py.VStr "") config) as [pw|]; [|discriminate].
  cbv zeta. destruct (String.eqb (Text.strip raw) ""); [discriminate|].
  destruct (Py.truthy pw) eqn:Tp; cbn [negb]; [|discriminate].
  destruct (Credentials.re_match_email (Text.strip raw)) eqn:M; cbn [negb]; [|discriminate].
  intros H. injection H as <- <-.
  split; [eauto|]. split; [reflexivity|]. split; [assumption|].
  apply re_match_email_iff in M as (l & d & t & nl & E & Hl1 & Hl2 & Hd1 & Hd2 & Ht1 & Ht2 & Hnl).
  exists l, d, t. destruct Hnl as [-> | ->].
  - rewrite app_nil_r in E. repeat split; assumption.
  - exfalso.
    assert (Hend : Text.ends_with_space (Text.strip raw) = false).
    { unfold Text.strip. apply ends_with_space_lstrip, ends_with_space_rstrip. }
    rewrite <- (string_of_list_ascii_of_string (Text.strip raw)), E in Hend.
    replace (l ++ "@"%char :: d ++ "."%char :: t ++ [Credentials.newline])%list
      with ((l ++ "@"%char :: d ++ "."%char :: t) ++ [Credentials.newline])%list in Hend
      by (rewrite <- !app_assoc; simpl; rewrite <- !app_assoc; reflexivity).
    rewrite ends_with_space_last in Hend. discriminate Hend.
Qed.

Lemma X24_returned_credentials_witness :
  exists l d t,
    list_ascii_of_string "anna@example.org"
    = (l ++ "@"%char :: d ++ "."%char :: t)%list
    /\ l <> [] /\ forallb Credentials.is_local_char l = true
    /\ d <> [] /\ forallb Credentials.is_domain_char d = true
    /\ 2 <= length t /\ forallb Credentials.is_letter t = true.
Proof.
  apply (X24_returned_credentials
           (Py.VDict [("email", Py.VStr "  anna@example.org ");
                      ("password", Py.VStr " geheim ")])
           "anna@example.org" (Py.VStr " geheim ")).
  vm_compute. reflexivity.
Defined.

Example config_without_at_exits :
  Credentials.get_credentials_from_config
    (Py.VDict [("email", Py.VStr "anna.example.org"); ("password", Py.VStr "x")])
  = Credentials.Exit.
Proof. reflexivity. Qed.

Example config_with_null_email_raises :
  Credentials.get_credentials_from_config
    (Py.VDict [("email", Py.VNone); ("password", Py.VStr "x")])
  = Credentials.Raised.
Proof. reflexivity. Qed.
